(** * pkg/metrics: readiness state and instrument-registry lifecycle

    A shallow embedding of [pkg/metrics/metrics.go] of the Kubernetes event
    exporter.  The package keeps two package-level variables,
    [globalMetricsStore] and [lastEventProcessedTime], and drives one piece
    of library state, the default Prometheus registry.  Functions of the
    package are embedded as computations over an explicit process state that
    either return or panic. *)

From Stdlib Require Import ZArith Lia.
From stdpp Require Import base option strings list gmap fin_maps.

(** ** Go's [time] package, as far as the package uses it *)

Module time.
Local Open Scope Z_scope.

(** A [time.Time] is an instant, counted in nanoseconds from the zero
    [Time] (the value of an uninitialised [time.Time] variable).  The
    monotonic clock reading that [time.Now] attaches is not kept apart:
    one clock gives both [Now] and the elapsed time of [Since]. *)
Definition Time : Type := Z.

(** A [time.Duration] is an [int64] count of nanoseconds. *)
Definition Duration : Type := Z.

Definition Nanosecond : Duration := 1.
Definition Microsecond : Duration := 1000 * Nanosecond.
Definition Millisecond : Duration := 1000 * Microsecond.
Definition Second : Duration := 1000 * Millisecond.
Definition Minute : Duration := 60 * Second.

Definition minDuration : Duration := - 2 ^ 63.
Definition maxDuration : Duration := 2 ^ 63 - 1.

(** [time.Time{}] *)
Definition zero : Time := 0.

(** [t.IsZero()] *)
Definition IsZero (t : Time) : bool := t =? 0.

(** [t.Sub(u)]: the duration [t-u]; when it does not fit a [Duration] the
    minimum or the maximum duration is returned. *)
Definition Sub (t u : Time) : Duration :=
  let d := t - u in
  if d <? minDuration then minDuration
  else if maxDuration <? d then maxDuration
  else d.

(** [time.Since(t)] is [time.Now().Sub(t)]; the clock reading [now] is
    an input of the embedding. *)
Definition Since (now t : Time) : Duration := Sub now t.
End time.

(** ** [net/http]: status codes and the response writer *)

Module http.
Local Open Scope Z_scope.

Definition StatusOK : Z := 200.
Definition StatusServiceUnavailable : Z := 503.

(** What a handler has written so far.  [wroteHeader] is false until the
    status line is sent. *)
Record ResponseWriter := mkResponseWriter {
  wroteHeader : bool;
  status : Z;
  body : string
}.

Definition newResponse : ResponseWriter :=
  {| wroteHeader := false; status := 0; body := "" |}.

(** [w.WriteHeader(code)]: the first call fixes the status code; a later
    call is superfluous and changes nothing. *)
Definition WriteHeader (code : Z) (w : ResponseWriter) : ResponseWriter :=
  if wroteHeader w then w
  else {| wroteHeader := true; status := code; body := body w |}.

(** [w.Write(data)]: sends the header with [StatusOK] if none was sent,
    then appends to the body. *)
Definition Write (data : string) (w : ResponseWriter) : ResponseWriter :=
  let w := WriteHeader StatusOK w in
  {| wroteHeader := wroteHeader w; status := status w;
     body := body w +:+ data |}.
End http.

(** [fmt.Fprintf(w, format)] with a format that has no verbs writes the
    format itself. *)
Module fmt.
Definition Fprintf (format : string) (w : http.ResponseWriter)
  : http.ResponseWriter := http.Write format w.
End fmt.

(** ** Prometheus client: descriptors and collectors *)

Module prometheus.
Definition Labels : Type := list (string * string).

(** [prometheus.Opts], of which [CounterOpts] and [GaugeOpts] are
    renamings; only the fields the package sets. *)
Record Opts := mkOpts {
  Name : string;
  Help : string;
  ConstLabels : Labels
}.

Definition CounterOpts : Type := Opts.
Definition GaugeOpts : Type := Opts.

(** The immutable descriptor of a metric. *)
Record Desc := mkDesc {
  fqName : string;
  help : string;
  constLabelPairs : Labels
}.

(** [prometheus.NewDesc]; namespace and subsystem are empty in this
    package, so the fully-qualified name is the [Name] option.  The
    library marks a descriptor invalid when it rejects the name, a
    label name or the encoding of a label value; the labels of this
    package have fixed, valid names and values that are constants of
    the build, so the name decides (see [Register] below). *)
Definition NewDesc (opts : Opts) : Desc :=
  {| fqName := Name opts; help := Help opts;
     constLabelPairs := ConstLabels opts |}.

(** What all descriptors of one fully-qualified name must share: the
    help string and the label names.  The library keeps a hash of the
    two per name; the embedding keeps the two themselves (label names as
    a set, the order of a [Labels] map being immaterial). *)
Definition DimHash : Type := (string * gset string)%type.

Definition dimHash (d : Desc) : DimHash :=
  (help d, list_to_set (constLabelPairs d).*1).

(** What tells the descriptors of one name apart: the values of the
    constant labels.  The library hashes the name with the values in
    the order of the label names; among descriptors that agree on the
    label names, the only ones it admits under one name, that is the
    name with the map from label names to values. *)
Definition descID (d : Desc) : string * gmap string string :=
  (fqName d, list_to_map (constLabelPairs d)).

(** A counter or gauge is an object with a descriptor and a mutable
    value; the value lives in the cell [*_cell] of the process heap.  A
    cell holds an integer: the number of increments of a counter, the
    value last set on a gauge (floating-point values are not
    modelled). *)
Record Counter := mkCounter { counter_desc : Desc; counter_cell : nat }.
Record Gauge := mkGauge { gauge_desc : Desc; gauge_cell : nat }.
Record GaugeFunc := mkGaugeFunc {
  gaugeFunc_desc : Desc;
  gaugeFunc_function : unit -> Z
}.

(** The [prometheus.Collector] interface, restricted to the three
    implementations the package registers. *)
Inductive Collector :=
| ofCounter (c : Counter)
| ofGauge (g : Gauge)
| ofGaugeFunc (f : GaugeFunc).

Definition Describe (c : Collector) : Desc :=
  match c with
  | ofCounter c => counter_desc c
  | ofGauge g => gauge_desc g
  | ofGaugeFunc f => gaugeFunc_desc f
  end.

(** Errors of [Registry.Register]: the typed [AlreadyRegisteredError],
    and the two plain errors for a descriptor that is invalid and for a
    descriptor whose help string or label names differ from those kept
    for its name. *)
Inductive error :=
| AlreadyRegisteredError (ExistingCollector NewCollector : Collector)
| InvalidDescError (d : Desc)
| InconsistentDescError (d : Desc).
End prometheus.

Coercion prometheus.ofCounter : prometheus.Counter >-> prometheus.Collector.
Coercion prometheus.ofGauge : prometheus.Gauge >-> prometheus.Collector.
Coercion prometheus.ofGaugeFunc : prometheus.GaugeFunc >-> prometheus.Collector.

(** ** pkg/version: the build constants read by [NewMetricsStore] *)

Module version.
Record Info := mkInfo {
  Version : string;
  Revision : string;
  GoVersion : string;
  GoOS : string;
  GoArch : string
}.
End version.

(** ** The [Store] of the package and the process state *)

Record Store := mkStore {
  EventsProcessed : prometheus.Counter;
  EventsDiscarded : prometheus.Counter;
  WatchErrors : prometheus.Counter;
  SendErrors : prometheus.Counter;
  BuildInfo : prometheus.GaugeFunc;
  KubeApiReadCacheHits : prometheus.Counter;
  KubeApiReadRequests : prometheus.Counter;
  LastProcessedEventTimestamp : prometheus.Gauge
}.

(** A [*T] that may be [nil].  Two [*Store] are compared by the stores
    they point to: every [Store] built by [NewMetricsStore] owns fresh
    cells, so distinct stores differ as values. *)
Definition ptr (T : Type) : Type := option T.
Definition nil {T : Type} : ptr T := None.

(** The mutable state of the process that the package reads and writes:
    - [DefaultRegisterer] and [dimHashesByName]: the default Prometheus
      registry.  The first holds the collectors registered with it, by
      the fully-qualified name of their descriptor.  The library knows
      a registered descriptor by its name and the values of its
      constant labels ([prometheus.descID]); labels of this package's
      metrics are constants of the build, so the embedding holds at
      most one collector per name, and leaves out the states in which
      collectors that differ in the values of their constant labels
      only share a name.  The second holds, for every name that was
      ever registered, the help string and label names of its
      descriptor; the library never removes an entry of it;
    - [cells]: the values of the counters and gauges allocated so far;
    - [globalMetricsStore], [lastEventProcessedTime]: the two
      package-level variables of [metrics.go]. *)
Record State := mkState {
  DefaultRegisterer : gmap string prometheus.Collector;
  dimHashesByName : gmap string prometheus.DimHash;
  cells : list Z;
  globalMetricsStore : ptr Store;
  lastEventProcessedTime : time.Time
}.

Definition set_DefaultRegisterer
    (f : gmap string prometheus.Collector -> gmap string prometheus.Collector)
    (s : State) : State :=
  {| DefaultRegisterer := f (DefaultRegisterer s);
     dimHashesByName := dimHashesByName s; cells := cells s;
     globalMetricsStore := globalMetricsStore s;
     lastEventProcessedTime := lastEventProcessedTime s |}.

Definition set_dimHashesByName
    (f : gmap string prometheus.DimHash -> gmap string prometheus.DimHash)
    (s : State) : State :=
  {| DefaultRegisterer := DefaultRegisterer s;
     dimHashesByName := f (dimHashesByName s); cells := cells s;
     globalMetricsStore := globalMetricsStore s;
     lastEventProcessedTime := lastEventProcessedTime s |}.

Definition set_cells (f : list Z -> list Z) (s : State) : State :=
  {| DefaultRegisterer := DefaultRegisterer s;
     dimHashesByName := dimHashesByName s; cells := f (cells s);
     globalMetricsStore := globalMetricsStore s;
     lastEventProcessedTime := lastEventProcessedTime s |}.

Definition set_globalMetricsStore (v : ptr Store) (s : State) : State :=
  {| DefaultRegisterer := DefaultRegisterer s;
     dimHashesByName := dimHashesByName s; cells := cells s;
     globalMetricsStore := v;
     lastEventProcessedTime := lastEventProcessedTime s |}.

Definition set_lastEventProcessedTime (t : time.Time) (s : State) : State :=
  {| DefaultRegisterer := DefaultRegisterer s;
     dimHashesByName := dimHashesByName s; cells := cells s;
     globalMetricsStore := globalMetricsStore s;
     lastEventProcessedTime := t |}.

(** The state of a process that has registered nothing of this package
    and processed no event. *)
Definition initial : State :=
  {| DefaultRegisterer := ∅; dimHashesByName := ∅; cells := [];
     globalMetricsStore := nil; lastEventProcessedTime := time.zero |}.

(** ** Computations that return or panic *)

Inductive PanicValue :=
| RegistrationPanic (err : prometheus.error)
| NilPointerDereference.

Inductive Outcome (A : Type) :=
| Returned (a : A) (s : State)
| Panicked (v : PanicValue) (s : State).
Arguments Returned {A} a s.
Arguments Panicked {A} v s.

Definition Go (A : Type) : Type := State -> Outcome A.

Definition ret {A} (a : A) : Go A := fun s => Returned a s.

Definition bind {A B} (m : Go A) (k : A -> Go B) : Go B :=
  fun s =>
    match m s with
    | Returned a s' => k a s'
    | Panicked v s' => Panicked v s'
    end.

Definition panic {A} (v : PanicValue) : Go A := fun s => Panicked v s.
Definition gets {A} (f : State -> A) : Go A := fun s => Returned (f s) s.
Definition modify (f : State -> State) : Go unit := fun s => Returned tt (f s).

Declare Scope go_scope.
Delimit Scope go_scope with go.
Notation "x <- m ;; k" := (bind m (fun x => k))
  (at level 100, m at next level, right associativity) : go_scope.
Notation "m ;;; k" := (bind m (fun _ => k))
  (at level 100, right associativity) : go_scope.

Definition returned {A} (o : Outcome A) : bool :=
  match o with Returned _ _ => true | Panicked _ _ => false end.

Definition final {A} (o : Outcome A) : State :=
  match o with Returned _ s => s | Panicked _ s => s end.

(** The store a call of [NewMetricsStore] returned. *)
Definition returnedStore (o : Outcome (ptr Store)) : ptr Store :=
  match o with Returned r _ => r | Panicked _ _ => nil end.

(** ** Values of counters and gauges *)

(** Allocation of the value cell of a new counter or gauge. *)
Definition alloc : Go nat :=
  fun s => Returned (length (cells s)) (set_cells (fun h => h ++ [0%Z]) s).

(** [prometheus.NewCounter], [prometheus.NewGauge],
    [prometheus.NewGaugeFunc]: build the object, register nothing. *)
Definition NewCounter (opts : prometheus.CounterOpts) : Go prometheus.Counter :=
  (cell <- alloc ;;
   ret {| prometheus.counter_desc := prometheus.NewDesc opts;
          prometheus.counter_cell := cell |})%go.

Definition NewGauge (opts : prometheus.GaugeOpts) : Go prometheus.Gauge :=
  (cell <- alloc ;;
   ret {| prometheus.gauge_desc := prometheus.NewDesc opts;
          prometheus.gauge_cell := cell |})%go.

Definition NewGaugeFunc (opts : prometheus.GaugeOpts) (function : unit -> Z)
    : Go prometheus.GaugeFunc :=
  ret {| prometheus.gaugeFunc_desc := prometheus.NewDesc opts;
         prometheus.gaugeFunc_function := function |}.

(** The current value of a collector. *)
Definition value (c : prometheus.Collector) (s : State) : Z :=
  match c with
  | prometheus.ofCounter c => default 0%Z (cells s !! prometheus.counter_cell c)
  | prometheus.ofGauge g => default 0%Z (cells s !! prometheus.gauge_cell g)
  | prometheus.ofGaugeFunc f => prometheus.gaugeFunc_function f tt
  end.

(** [c.Inc()] *)
Definition Counter_Inc (c : prometheus.Counter) : Go unit :=
  modify (fun s =>
    set_cells (fun h => <[prometheus.counter_cell c := (value c s + 1)%Z]> h) s).

(** [g.Set(v)] *)
Definition Gauge_Set (v : Z) (g : prometheus.Gauge) : Go unit :=
  modify (set_cells (fun h => <[prometheus.gauge_cell g := v]> h)).

(** [g.SetToCurrentTime()] is [g.Set] of the wall clock read as seconds
    since the Unix epoch, a [float64] that the library computes.  That
    number is an input of the embedding, [unixSeconds]: it is not
    derived from a [time.Time] of the embedding, and no statement below
    depends on which number it is. *)
Definition Gauge_SetToCurrentTime (unixSeconds : Z) (g : prometheus.Gauge)
    : Go unit :=
  Gauge_Set unixSeconds g.

(** What the exposition endpoint reports under a metric name: the value
    of the collector registered under it, if any. *)
Definition exported (name : string) (s : State) : option Z :=
  c ← DefaultRegisterer s !! name; Some (value c s).

(** ** Concrete library parameters

    The name check of the library's legacy validation scheme,
    [[a-zA-Z_:][a-zA-Z0-9_:]*], and the constants of a development
    build; the concrete runs below are made with them. *)

Module legacy.
Local Open Scope N_scope.

Definition isLetter (c : Ascii.ascii) : bool :=
  let n := Ascii.N_of_ascii c in
  ((65 <=? n) && (n <=? 90)) || ((97 <=? n) && (n <=? 122)).

Definition isDigit (c : Ascii.ascii) : bool :=
  let n := Ascii.N_of_ascii c in (48 <=? n) && (n <=? 57).

Definition isNameStart (c : Ascii.ascii) : bool :=
  isLetter c || (Ascii.N_of_ascii c =? 95) || (Ascii.N_of_ascii c =? 58).

Fixpoint allChars (f : Ascii.ascii -> bool) (s : string) : bool :=
  match s with
  | EmptyString => true
  | String c r => f c && allChars f r
  end.

Definition IsValidMetricName (name : string) : bool :=
  match name with
  | EmptyString => false
  | String c r =>
      isNameStart c && allChars (fun c => isNameStart c || isDigit c) r
  end.
End legacy.

Definition devBuild : version.Info :=
  {| version.Version := "dev"; version.Revision := "unknown";
     version.GoVersion := "go1.20"; version.GoOS := "linux";
     version.GoArch := "amd64" |}.

(** ** The default registry *)

Section Metrics.

(** [model.IsValidMetricName] of the Prometheus library: which names a
    descriptor may carry depends on the library's validation scheme. *)
Variable IsValidMetricName : string -> bool.

(** The constants of [pkg/version] for the running build. *)
Variable build : version.Info.

(** The handlers of [promhttp.HandlerFor] and of the landing page,
    provided by the libraries. *)
Variable metricsHandler landingPage :
  time.Time -> http.ResponseWriter -> Go http.ResponseWriter.

(** Whether a help string and label names agree with those kept for a
    name, if any are kept. *)
Definition consistent (name : string) (h : prometheus.DimHash) (s : State)
    : bool :=
  match dimHashesByName s !! name with
  | Some h' => bool_decide (h' = h)
  | None => true
  end.

(** [prometheus.Register(c)], in the order of the library's tests: the
    descriptor must be valid; its help string and label names must
    agree with those kept for its name; it must not be registered
    already.  Each failure is reported as an error and leaves the
    registry as it is: the first two as plain errors, the third as an
    [AlreadyRegisteredError] that carries the registered collector.  A
    registration records the collector and keeps the help string and
    label names for the name. *)
Definition Register (c : prometheus.Collector) : Go (option prometheus.error) :=
  fun s =>
    let d := prometheus.Describe c in
    if negb (IsValidMetricName (prometheus.fqName d)) then
      Returned (Some (prometheus.InvalidDescError d)) s
    else if negb (consistent (prometheus.fqName d) (prometheus.dimHash d) s) then
      Returned (Some (prometheus.InconsistentDescError d)) s
    else
      match DefaultRegisterer s !! prometheus.fqName d with
      | Some existing =>
          Returned (Some (prometheus.AlreadyRegisteredError existing c)) s
      | None =>
          Returned None
            (set_dimHashesByName
               (insert (prometheus.fqName d) (prometheus.dimHash d))
               (set_DefaultRegisterer (insert (prometheus.fqName d) c) s))
      end.

(** [prometheus.MustRegister(c)] panics where [Register] fails. *)
Definition MustRegister (c : prometheus.Collector) : Go unit :=
  (err <- Register c ;;
   match err with
   | Some e => panic (RegistrationPanic e)
   | None => ret tt
   end)%go.

(** [prometheus.Unregister(c)]: removes the collector registered under
    the descriptor of [c] and reports whether there was one.  What is
    kept in [dimHashesByName] stays. *)
Definition Unregister (c : prometheus.Collector) : Go bool :=
  fun s =>
    let name := prometheus.fqName (prometheus.Describe c) in
    match DefaultRegisterer s !! name with
    | Some _ => Returned true (set_DefaultRegisterer (delete name) s)
    | None => Returned false s
    end.

(** [promauto.NewCounter], [promauto.NewGauge], [promauto.NewGaugeFunc]:
    the new collector is registered with the default registry by
    [MustRegister]. *)
Definition promauto_NewCounter (opts : prometheus.CounterOpts)
    : Go prometheus.Counter :=
  (c <- NewCounter opts ;; MustRegister c ;;; ret c)%go.

Definition promauto_NewGauge (opts : prometheus.GaugeOpts)
    : Go prometheus.Gauge :=
  (g <- NewGauge opts ;; MustRegister g ;;; ret g)%go.

Definition promauto_NewGaugeFunc (opts : prometheus.GaugeOpts)
    (function : unit -> Z) : Go prometheus.GaugeFunc :=
  (g <- NewGaugeFunc opts function ;; MustRegister g ;;; ret g)%go.

(** ** [metrics.go] *)

Definition isEventExporterReady (now : time.Time) : Go bool :=
  (g <- gets globalMetricsStore ;;
   match g with
   | None => ret false
   | Some _ =>
       last <- gets lastEventProcessedTime ;;
       if time.IsZero last then ret true
       else
         let timeSinceLastEvent := time.Since now last in
         ret (timeSinceLastEvent <? 5 * time.Minute)%Z
   end)%go.

Definition SetLastEventProcessedTime (now : time.Time) : Go unit :=
  modify (set_lastEventProcessedTime now).

(** The two probe handlers that [Init] installs. *)
Definition healthyHandler (now : time.Time) (w : http.ResponseWriter)
    : Go http.ResponseWriter :=
  let w := http.WriteHeader http.StatusOK w in
  ret (fmt.Fprintf "OK" w).

Definition readyHandler (now : time.Time) (w : http.ResponseWriter)
    : Go http.ResponseWriter :=
  (ready <- isEventExporterReady now ;;
   if ready then
     let w := http.WriteHeader http.StatusOK w in
     ret (fmt.Fprintf "OK" w)
   else
     let w := http.WriteHeader http.StatusServiceUnavailable w in
     ret (fmt.Fprintf "Not Ready - No events processed recently" w))%go.

(** The patterns [Init] registers with [http.DefaultServeMux], in the
    order of the calls. *)
Definition Init_routes
    : list (string * (time.Time -> http.ResponseWriter -> Go http.ResponseWriter)) :=
  [ ("/metrics", metricsHandler);
    ("/", landingPage);
    ("/-/healthy", healthyHandler);
    ("/-/ready", readyHandler) ].

(** The mux serves a path with the handler of the pattern equal to it,
    and every other path with the handler of the pattern ["/"]. *)
Definition ServeHTTP (now : time.Time) (path : string)
    (w : http.ResponseWriter) : Go http.ResponseWriter :=
  match list_find (fun r => fst r = path) Init_routes with
  | Some (_, (_, h)) => h now w
  | None => landingPage now w
  end.

Definition NewMetricsStore (name_prefix : string) : Go (ptr Store) :=
  (BuildInfo <- promauto_NewGaugeFunc
     {| prometheus.Name := name_prefix +:+ "build_info";
        prometheus.Help := "A metric with a constant '1' value labeled by version, revision, branch, and goversion from which Kubernetes Event Exporter was built.";
        prometheus.ConstLabels :=
          [ ("version", version.Version build);
            ("revision", version.Revision build);
            ("goversion", version.GoVersion build);
            ("goos", version.GoOS build);
            ("goarch", version.GoArch build) ] |}
     (fun _ => 1%Z) ;;
   EventsProcessed <- promauto_NewCounter
     {| prometheus.Name := name_prefix +:+ "events_sent";
        prometheus.Help := "The total number of events processed";
        prometheus.ConstLabels := [] |} ;;
   EventsDiscarded <- promauto_NewCounter
     {| prometheus.Name := name_prefix +:+ "events_discarded";
        prometheus.Help := "The total number of events discarded because of being older than the maxEventAgeSeconds specified";
        prometheus.ConstLabels := [] |} ;;
   WatchErrors <- promauto_NewCounter
     {| prometheus.Name := name_prefix +:+ "watch_errors";
        prometheus.Help := "The total number of errors received from the informer";
        prometheus.ConstLabels := [] |} ;;
   SendErrors <- promauto_NewCounter
     {| prometheus.Name := name_prefix +:+ "send_event_errors";
        prometheus.Help := "The total number of send event errors";
        prometheus.ConstLabels := [] |} ;;
   KubeApiReadCacheHits <- promauto_NewCounter
     {| prometheus.Name := name_prefix +:+ "kube_api_read_cache_hits";
        prometheus.Help := "The total number of read requests served from cache when looking up object metadata";
        prometheus.ConstLabels := [] |} ;;
   KubeApiReadRequests <- promauto_NewCounter
     {| prometheus.Name := name_prefix +:+ "kube_api_read_cache_misses";
        prometheus.Help := "The total number of read requests served from kube-apiserver when looking up object metadata";
        prometheus.ConstLabels := [] |} ;;
   LastProcessedEventTimestamp <- promauto_NewGauge
     {| prometheus.Name := name_prefix +:+ "last_processed_event_timestamp";
        prometheus.Help := "The timestamp of the last successfully processed event";
        prometheus.ConstLabels := [] |} ;;
   let store :=
     {| EventsProcessed := EventsProcessed;
        EventsDiscarded := EventsDiscarded;
        WatchErrors := WatchErrors;
        SendErrors := SendErrors;
        BuildInfo := BuildInfo;
        KubeApiReadCacheHits := KubeApiReadCacheHits;
        KubeApiReadRequests := KubeApiReadRequests;
        LastProcessedEventTimestamp := LastProcessedEventTimestamp |} in
   (* Store global reference for health checks *)
   modify (set_globalMetricsStore (Some store)) ;;;
   ret (Some store))%go.

(** [store.F] on a [*Store]: a nil pointer dereference panics. *)
Definition deref {T} (p : ptr T) : Go T :=
  match p with
  | Some x => ret x
  | None => panic NilPointerDereference
  end.

Definition DestroyMetricsStore (store : ptr Store) : Go unit :=
  (st <- deref store ;; Unregister (EventsProcessed st) ;;;
   st <- deref store ;; Unregister (EventsDiscarded st) ;;;
   st <- deref store ;; Unregister (WatchErrors st) ;;;
   st <- deref store ;; Unregister (SendErrors st) ;;;
   st <- deref store ;; Unregister (BuildInfo st) ;;;
   st <- deref store ;; Unregister (KubeApiReadCacheHits st) ;;;
   st <- deref store ;; Unregister (KubeApiReadRequests st) ;;;
   st <- deref store ;; Unregister (LastProcessedEventTimestamp st) ;;;
   (* store = nil: the assignment is to the parameter, a local variable *)
   let store : ptr Store := nil in
   ret tt)%go.


(** ** The instruments of a bundle *)

(** The collectors of a store in the order [NewMetricsStore] registers
    them, and in the order [DestroyMetricsStore] unregisters them. *)
Definition registered (st : Store) : list prometheus.Collector :=
  [ prometheus.ofGaugeFunc (BuildInfo st);
    prometheus.ofCounter (EventsProcessed st);
    prometheus.ofCounter (EventsDiscarded st);
    prometheus.ofCounter (WatchErrors st);
    prometheus.ofCounter (SendErrors st);
    prometheus.ofCounter (KubeApiReadCacheHits st);
    prometheus.ofCounter (KubeApiReadRequests st);
    prometheus.ofGauge (LastProcessedEventTimestamp st) ].

Definition unregistered (st : Store) : list prometheus.Collector :=
  [ prometheus.ofCounter (EventsProcessed st);
    prometheus.ofCounter (EventsDiscarded st);
    prometheus.ofCounter (WatchErrors st);
    prometheus.ofCounter (SendErrors st);
    prometheus.ofGaugeFunc (BuildInfo st);
    prometheus.ofCounter (KubeApiReadCacheHits st);
    prometheus.ofCounter (KubeApiReadRequests st);
    prometheus.ofGauge (LastProcessedEventTimestamp st) ].

Definition nameOf (c : prometheus.Collector) : string :=
  prometheus.fqName (prometheus.Describe c).

(** The names [NewMetricsStore] derives from a prefix, in the order of
    its registrations. *)
Definition derivedNames (name_prefix : string) : list string :=
  [ name_prefix +:+ "build_info";
    name_prefix +:+ "events_sent";
    name_prefix +:+ "events_discarded";
    name_prefix +:+ "watch_errors";
    name_prefix +:+ "send_event_errors";
    name_prefix +:+ "kube_api_read_cache_hits";
    name_prefix +:+ "kube_api_read_cache_misses";
    name_prefix +:+ "last_processed_event_timestamp" ].

(** A prefix is valid when the library accepts every name derived from
    it; it is fresh in a state when none of them is registered. *)
Definition validPrefix (name_prefix : string) : bool :=
  forallb IsValidMetricName (derivedNames name_prefix).

Definition absent (names : list string) (s : State) : bool :=
  forallb (fun n => bool_decide (DefaultRegisterer s !! n = None)) names.

(** ** Notions used by the statements *)

(** What a registration that returns has done: the name was valid and
    free and nothing kept for it disagreed, and the state differs by the
    new entry, what is kept for the name (and the new cell). *)
Definition registers (name : string) (c : prometheus.Collector)
    (newCells : list Z) (s s' : State) : Prop :=
  IsValidMetricName name = true /\
  DefaultRegisterer s !! name = None /\
  DefaultRegisterer s' = <[name := c]> (DefaultRegisterer s) /\
  cells s' = cells s ++ newCells /\
  globalMetricsStore s' = globalMetricsStore s /\
  lastEventProcessedTime s' = lastEventProcessedTime s /\
  consistent name (prometheus.dimHash (prometheus.Describe c)) s = true /\
  dimHashesByName s' =
    <[name := prometheus.dimHash (prometheus.Describe c)]> (dimHashesByName s).

(** The descriptors [NewMetricsStore] builds from a prefix, in the
    order of its registrations: name, help string and constant labels
    as the source gives them. *)
Definition derivedDescs (name_prefix : string) : list prometheus.Desc :=
  [ {| prometheus.fqName := name_prefix +:+ "build_info";
       prometheus.help := "A metric with a constant '1' value labeled by version, revision, branch, and goversion from which Kubernetes Event Exporter was built.";
       prometheus.constLabelPairs :=
         [ ("version", version.Version build);
           ("revision", version.Revision build);
           ("goversion", version.GoVersion build);
           ("goos", version.GoOS build);
           ("goarch", version.GoArch build) ] |};
    {| prometheus.fqName := name_prefix +:+ "events_sent";
       prometheus.help := "The total number of events processed";
       prometheus.constLabelPairs := [] |};
    {| prometheus.fqName := name_prefix +:+ "events_discarded";
       prometheus.help := "The total number of events discarded because of being older than the maxEventAgeSeconds specified";
       prometheus.constLabelPairs := [] |};
    {| prometheus.fqName := name_prefix +:+ "watch_errors";
       prometheus.help := "The total number of errors received from the informer";
       prometheus.constLabelPairs := [] |};
    {| prometheus.fqName := name_prefix +:+ "send_event_errors";
       prometheus.help := "The total number of send event errors";
       prometheus.constLabelPairs := [] |};
    {| prometheus.fqName := name_prefix +:+ "kube_api_read_cache_hits";
       prometheus.help := "The total number of read requests served from cache when looking up object metadata";
       prometheus.constLabelPairs := [] |};
    {| prometheus.fqName := name_prefix +:+ "kube_api_read_cache_misses";
       prometheus.help := "The total number of read requests served from kube-apiserver when looking up object metadata";
       prometheus.constLabelPairs := [] |};
    {| prometheus.fqName := name_prefix +:+ "last_processed_event_timestamp";
       prometheus.help := "The timestamp of the last successfully processed event";
       prometheus.constLabelPairs := [] |} ].

(** Nothing kept in a state disagrees with the descriptors of a list;
    a prefix is compatible with a state when this holds of the
    descriptors derived from it. *)
Definition consistentAll (ds : list prometheus.Desc) (s : State) : bool :=
  forallb (fun d => consistent (prometheus.fqName d) (prometheus.dimHash d) s)
          ds.

Definition compatible (name_prefix : string) (s : State) : bool :=
  consistentAll (derivedDescs name_prefix) s.

(** What is kept after the collectors of a list are registered in turn. *)
Definition insertAllDims (cs : list prometheus.Collector)
    (m : gmap string prometheus.DimHash) : gmap string prometheus.DimHash :=
  foldl (fun m c =>
           <[nameOf c := prometheus.dimHash (prometheus.Describe c)]> m)
        m cs.

(** The registry after the collectors of a list are registered in turn. *)
Definition insertAll (cs : list prometheus.Collector)
    (m : gmap string prometheus.Collector) : gmap string prometheus.Collector :=
  foldl (fun m c => <[nameOf c := c]> m) m cs.

(** The process state as the specification sees it. *)
Definition activeBundleExists (s : State) : bool :=
  match globalMetricsStore s with Some _ => true | None => false end.

Definition lastProcessedTime (s : State) : option time.Time :=
  if time.IsZero (lastEventProcessedTime s) then None
  else Some (lastEventProcessedTime s).

(** The readiness rule as the specification words it, over
    [(activeBundleExists, lastProcessedTime, now)]; five minutes are
    counted in nanoseconds. *)
Definition readiness_rule (activeBundleExists : bool)
    (lastProcessedTime : option Z) (now : Z) : bool :=
  if activeBundleExists then
    match lastProcessedTime with
    | None => true
    | Some t => bool_decide (now - t < 5 * 60 * 1000000000)%Z
    end
  else false.

(** The two answers of the readiness probe. *)
Definition okResponse : http.ResponseWriter :=
  {| http.wroteHeader := true; http.status := 200; http.body := "OK" |}.

Definition notReadyResponse : http.ResponseWriter :=
  {| http.wroteHeader := true; http.status := 503;
     http.body := "Not Ready - No events processed recently" |}.

(** The tracked signals, the instrument a store holds for each, and the
    suffix the specification gives for each. *)
Inductive Signal :=
| EventsProcessedSignal
| EventsDiscardedSignal
| WatchErrorsSignal
| SendErrorsSignal
| KubeApiReadCacheHitsSignal
| KubeApiReadRequestsSignal
| BuildInfoSignal
| LastProcessedEventTimestampSignal.

Definition instrument (st : Store) (sig : Signal) : prometheus.Collector :=
  match sig with
  | EventsProcessedSignal => EventsProcessed st
  | EventsDiscardedSignal => EventsDiscarded st
  | WatchErrorsSignal => WatchErrors st
  | SendErrorsSignal => SendErrors st
  | KubeApiReadCacheHitsSignal => KubeApiReadCacheHits st
  | KubeApiReadRequestsSignal => KubeApiReadRequests st
  | BuildInfoSignal => BuildInfo st
  | LastProcessedEventTimestampSignal => LastProcessedEventTimestamp st
  end.

Definition spec_suffix (sig : Signal) : string :=
  match sig with
  | EventsProcessedSignal => "events_sent"
  | EventsDiscardedSignal => "events_discarded"
  | WatchErrorsSignal => "watch_errors"
  | SendErrorsSignal => "send_event_errors"
  | KubeApiReadCacheHitsSignal => "kube_api_read_cache_hits"
  | KubeApiReadRequestsSignal => "kube_api_read_cache_misses"
  | BuildInfoSignal => "build_info"
  | LastProcessedEventTimestampSignal => "last_processed_event_timestamp"
  end.

(** What every step of a creation respects, returning or panicking:
    the time of the last event stays, and cells are only added. *)
Definition extends (s s' : State) : Prop :=
  lastEventProcessedTime s' = lastEventProcessedTime s /\
  cells s `prefix_of` cells s'.

Definition preserves {A} (m : Go A) : Prop :=
  forall s, extends s (final (m s)).

(** A process that has created a store with prefix [app_]. *)
Definition appRunning : State :=
  final (NewMetricsStore "app_" initial).

(** What a creation that panics has kept: both package variables, and
    every entry of the registry. *)
Definition kept (s s' : State) : Prop :=
  globalMetricsStore s' = globalMetricsStore s /\
  lastEventProcessedTime s' = lastEventProcessedTime s /\
  DefaultRegisterer s ⊆ DefaultRegisterer s'.

(** A step keeps the state in that sense however it ends, and panics
    with a registration error only. *)
Definition keeps {A} (m : Go A) : Prop :=
  forall s,
    kept s (final (m s)) /\
    (forall v s', m s = Panicked v s' -> exists e, v = RegistrationPanic e).

(** A computation keeps the state when it panics. *)
Definition keeps_on_panic {A} (m : Go A) : Prop :=
  forall s v s',
    m s = Panicked v s' ->
    (exists e, v = RegistrationPanic e) /\ kept s s'.

(** The value a call panicked with. *)
Definition panicValue {A} (o : Outcome A) : option PanicValue :=
  match o with Returned _ _ => None | Panicked v _ => Some v end.

(** A creation panics at the descriptor [d], with the names [before]
    it already registered: the error is the one the library gives for
    [d] in the state [s] the creation started from, and the names of
    the registry are those of [s] and [before]. *)
Definition panicsAt (d : prometheus.Desc) (before : list string) (s : State)
    (o : Outcome (ptr Store)) : Prop :=
  exists e s',
    o = Panicked (RegistrationPanic e) s' /\
    dom (DefaultRegisterer s') =
      dom (DefaultRegisterer s) ∪ (list_to_set before : gset string) /\
    match e with
    | prometheus.InvalidDescError d' =>
        d' = d /\ IsValidMetricName (prometheus.fqName d) = false
    | prometheus.InconsistentDescError d' =>
        d' = d /\
        IsValidMetricName (prometheus.fqName d) = true /\
        consistent (prometheus.fqName d) (prometheus.dimHash d) s = false
    | prometheus.AlreadyRegisteredError existing new =>
        prometheus.Describe new = d /\
        IsValidMetricName (prometheus.fqName d) = true /\
        consistent (prometheus.fqName d) (prometheus.dimHash d) s = true /\
        DefaultRegisterer s !! prometheus.fqName d = Some existing
    end.

(** The value cells of the counters and of the gauge of a store, in the
    order [NewMetricsStore] allocates them. *)
Definition cellsOf (st : Store) : list nat :=
  [ prometheus.counter_cell (EventsProcessed st);
    prometheus.counter_cell (EventsDiscarded st);
    prometheus.counter_cell (WatchErrors st);
    prometheus.counter_cell (SendErrors st);
    prometheus.counter_cell (KubeApiReadCacheHits st);
    prometheus.counter_cell (KubeApiReadRequests st);
    prometheus.gauge_cell (LastProcessedEventTimestamp st) ].

(** The cell that holds the value of the instrument of a signal; the
    build information has none. *)
Definition cellOf (st : Store) (sig : Signal) : option nat :=
  match sig with
  | EventsProcessedSignal => Some (prometheus.counter_cell (EventsProcessed st))
  | EventsDiscardedSignal => Some (prometheus.counter_cell (EventsDiscarded st))
  | WatchErrorsSignal => Some (prometheus.counter_cell (WatchErrors st))
  | SendErrorsSignal => Some (prometheus.counter_cell (SendErrors st))
  | KubeApiReadCacheHitsSignal =>
      Some (prometheus.counter_cell (KubeApiReadCacheHits st))
  | KubeApiReadRequestsSignal =>
      Some (prometheus.counter_cell (KubeApiReadRequests st))
  | BuildInfoSignal => None
  | LastProcessedEventTimestampSignal =>
      Some (prometheus.gauge_cell (LastProcessedEventTimestamp st))
  end.

(** A store is live in a state when its collectors are registered and
    own distinct, allocated cells: the condition in which
    [NewMetricsStore] leaves the store it returns. *)
Definition live (st : Store) (s : State) : Prop :=
  Forall (fun c => DefaultRegisterer s !! nameOf c = Some c) (registered st) /\
  NoDup (cellsOf st) /\
  Forall (fun i => i < length (cells s)) (cellsOf st).

(** The value a call returned. *)
Definition returnedValue {A} (o : Outcome A) : option A :=
  match o with Returned a _ => Some a | Panicked _ _ => None end.

(** A state in which a counter that does not belong to the package is
    registered under a name. *)
Definition foreignCounter (name : string) : prometheus.Counter :=
  {| prometheus.counter_desc :=
       {| prometheus.fqName := name; prometheus.help := "foreign";
          prometheus.constLabelPairs := [] |};
     prometheus.counter_cell := 0 |}.

Definition withForeign (name : string) (s : State) : State :=
  set_dimHashesByName
    (insert name (prometheus.dimHash (prometheus.counter_desc (foreignCounter name))))
    (set_DefaultRegisterer
       (insert name (prometheus.ofCounter (foreignCounter name))) s).

(** A state in which such a counter was registered and unregistered:
    what is kept for the name stays. *)
Definition withStale (name : string) (s : State) : State :=
  set_DefaultRegisterer (delete name) (withForeign name s).

(** ** Basic facts *)

Lemma bind_Returned_inv {A B} (m : Go A) (k : A -> Go B) s b s' :
  bind m k s = Returned b s' ->
  exists a s1, m s = Returned a s1 /\ k a s1 = Returned b s'.
Proof.
  unfold bind. destruct (m s) as [a s1|v s1]; [eauto | discriminate].
Qed.

Lemma bind_Returned {A B} (m : Go A) (k : A -> Go B) s a s1 :
  m s = Returned a s1 -> bind m k s = k a s1.
Proof. unfold bind. intros ->. reflexivity. Qed.

Lemma append_inj_l (p a b : string) : p +:+ a = p +:+ b -> a = b.
Proof.
  induction p as [|c p IH]; simpl; [tauto|].
  intros E. injection E as E. auto.
Qed.

Lemma State_eta (s : State) :
  {| DefaultRegisterer := DefaultRegisterer s;
     dimHashesByName := dimHashesByName s; cells := cells s;
     globalMetricsStore := globalMetricsStore s;
     lastEventProcessedTime := lastEventProcessedTime s |} = s.
Proof. destruct s; reflexivity. Qed.

Lemma absent_Forall names s :
  absent names s = true <->
  Forall (fun n => DefaultRegisterer s !! n = None) names.
Proof.
  unfold absent. rewrite forallb_forall, Forall_forall.
  split; intros H n Hn.
  - apply list_elem_of_In in Hn. apply H in Hn.
    by apply bool_decide_eq_true in Hn.
  - apply bool_decide_eq_true. apply H. by apply list_elem_of_In.
Qed.

(** *** The registry primitives *)

Lemma Unregister_eq (c : prometheus.Collector) s :
  Unregister c s =
    Returned (bool_decide (is_Some (DefaultRegisterer s !! nameOf c)))
             (set_DefaultRegisterer (delete (nameOf c)) s).
Proof.
  unfold Unregister, nameOf.
  destruct (DefaultRegisterer s !! _) as [x|] eqn:E.
  - rewrite bool_decide_eq_true_2 by eauto. reflexivity.
  - rewrite bool_decide_eq_false_2 by (intros [? ?]; discriminate).
    unfold set_DefaultRegisterer. rewrite delete_id by exact E.
    by rewrite State_eta.
Qed.

(** Unregistering a collector that is not registered reports [false]
    and changes nothing. *)
Lemma Unregister_absent (c : prometheus.Collector) s :
  DefaultRegisterer s !! nameOf c = None -> Unregister c s = Returned false s.
Proof. unfold Unregister, nameOf. by intros ->. Qed.

Lemma MustRegister_eq (c : prometheus.Collector) s :
  MustRegister c s =
    if IsValidMetricName (nameOf c) then
      if consistent (nameOf c) (prometheus.dimHash (prometheus.Describe c)) s
      then
        match DefaultRegisterer s !! nameOf c with
        | Some existing =>
            Panicked (RegistrationPanic
                        (prometheus.AlreadyRegisteredError existing c)) s
        | None =>
            Returned tt
              (set_dimHashesByName
                 (insert (nameOf c)
                    (prometheus.dimHash (prometheus.Describe c)))
                 (set_DefaultRegisterer (insert (nameOf c) c) s))
        end
      else
        Panicked (RegistrationPanic
                    (prometheus.InconsistentDescError (prometheus.Describe c)))
                 s
    else
      Panicked (RegistrationPanic
                  (prometheus.InvalidDescError (prometheus.Describe c))) s.
Proof.
  unfold MustRegister, bind, Register, nameOf.
  destruct (IsValidMetricName _); simpl; [|reflexivity].
  destruct (consistent _ _ _); simpl; [|reflexivity].
  destruct (DefaultRegisterer s !! _); reflexivity.
Qed.


(** *** The registering constructors *)

Lemma promauto_NewGaugeFunc_eq opts f s :
  promauto_NewGaugeFunc opts f s =
    let g := {| prometheus.gaugeFunc_desc := prometheus.NewDesc opts;
                prometheus.gaugeFunc_function := f |} in
    if IsValidMetricName (prometheus.Name opts) then
      if consistent (prometheus.Name opts)
           (prometheus.dimHash (prometheus.NewDesc opts)) s
      then
        match DefaultRegisterer s !! prometheus.Name opts with
        | Some existing =>
            Panicked (RegistrationPanic
                        (prometheus.AlreadyRegisteredError existing g)) s
        | None =>
            Returned g
              (set_dimHashesByName
                 (insert (prometheus.Name opts)
                    (prometheus.dimHash (prometheus.NewDesc opts)))
                 (set_DefaultRegisterer
                    (insert (prometheus.Name opts) (g : prometheus.Collector))
                    s))
        end
      else
        Panicked (RegistrationPanic
                    (prometheus.InconsistentDescError (prometheus.NewDesc opts)))
                 s
    else
      Panicked (RegistrationPanic
                  (prometheus.InvalidDescError (prometheus.NewDesc opts))) s.
Proof.
  unfold promauto_NewGaugeFunc, NewGaugeFunc, bind, ret.
  rewrite MustRegister_eq. unfold nameOf. simpl.
  destruct (IsValidMetricName _); [|reflexivity].
  destruct (consistent _ _ _); [|reflexivity].
  destruct (DefaultRegisterer s !! _); reflexivity.
Qed.

Lemma promauto_NewCounter_eq opts s :
  promauto_NewCounter opts s =
    let c := {| prometheus.counter_desc := prometheus.NewDesc opts;
                prometheus.counter_cell := length (cells s) |} in
    let s1 := set_cells (fun h => h ++ [0%Z]) s in
    if IsValidMetricName (prometheus.Name opts) then
      if consistent (prometheus.Name opts)
           (prometheus.dimHash (prometheus.NewDesc opts)) s
      then
        match DefaultRegisterer s !! prometheus.Name opts with
        | Some existing =>
            Panicked (RegistrationPanic
                        (prometheus.AlreadyRegisteredError existing c)) s1
        | None =>
            Returned c
              (set_dimHashesByName
                 (insert (prometheus.Name opts)
                    (prometheus.dimHash (prometheus.NewDesc opts)))
                 (set_DefaultRegisterer
                    (insert (prometheus.Name opts) (c : prometheus.Collector))
                    s1))
        end
      else
        Panicked (RegistrationPanic
                    (prometheus.InconsistentDescError (prometheus.NewDesc opts)))
                 s1
    else
      Panicked (RegistrationPanic
                  (prometheus.InvalidDescError (prometheus.NewDesc opts))) s1.
Proof.
  unfold promauto_NewCounter, NewCounter, alloc, bind, ret.
  rewrite MustRegister_eq. unfold nameOf. simpl.
  destruct (IsValidMetricName _); [|reflexivity].
  destruct (consistent _ _ _); [|reflexivity].
  destruct (DefaultRegisterer s !! _); reflexivity.
Qed.

Lemma promauto_NewGauge_eq opts s :
  promauto_NewGauge opts s =
    let g := {| prometheus.gauge_desc := prometheus.NewDesc opts;
                prometheus.gauge_cell := length (cells s) |} in
    let s1 := set_cells (fun h => h ++ [0%Z]) s in
    if IsValidMetricName (prometheus.Name opts) then
      if consistent (prometheus.Name opts)
           (prometheus.dimHash (prometheus.NewDesc opts)) s
      then
        match DefaultRegisterer s !! prometheus.Name opts with
        | Some existing =>
            Panicked (RegistrationPanic
                        (prometheus.AlreadyRegisteredError existing g)) s1
        | None =>
            Returned g
              (set_dimHashesByName
                 (insert (prometheus.Name opts)
                    (prometheus.dimHash (prometheus.NewDesc opts)))
                 (set_DefaultRegisterer
                    (insert (prometheus.Name opts) (g : prometheus.Collector))
                    s1))
        end
      else
        Panicked (RegistrationPanic
                    (prometheus.InconsistentDescError (prometheus.NewDesc opts)))
                 s1
    else
      Panicked (RegistrationPanic
                  (prometheus.InvalidDescError (prometheus.NewDesc opts))) s1.
Proof.
  unfold promauto_NewGauge, NewGauge, alloc, bind, ret.
  rewrite MustRegister_eq. unfold nameOf. simpl.
  destruct (IsValidMetricName _); [|reflexivity].
  destruct (consistent _ _ _); [|reflexivity].
  destruct (DefaultRegisterer s !! _); reflexivity.
Qed.

Lemma State_ext (s1 s2 : State) :
  DefaultRegisterer s1 = DefaultRegisterer s2 ->
  dimHashesByName s1 = dimHashesByName s2 ->
  cells s1 = cells s2 ->
  globalMetricsStore s1 = globalMetricsStore s2 ->
  lastEventProcessedTime s1 = lastEventProcessedTime s2 ->
  s1 = s2.
Proof. destruct s1, s2; simpl; congruence. Qed.

Lemma MustRegister_Returned_inv (c : prometheus.Collector) s u s' :
  MustRegister c s = Returned u s' -> registers (nameOf c) c [] s s'.
Proof.
  rewrite MustRegister_eq. unfold registers.
  destruct (IsValidMetricName _); [|discriminate].
  destruct (consistent _ _ _) eqn:K; [|discriminate].
  destruct (DefaultRegisterer s !! _) eqn:E; [discriminate|].
  intros [= <- <-]. rewrite app_nil_r. by repeat split.
Qed.

Lemma promauto_NewGaugeFunc_Returned_inv opts f s g s' :
  promauto_NewGaugeFunc opts f s = Returned g s' ->
  g = {| prometheus.gaugeFunc_desc := prometheus.NewDesc opts;
         prometheus.gaugeFunc_function := f |} /\
  registers (prometheus.Name opts) g [] s s'.
Proof.
  unfold promauto_NewGaugeFunc, NewGaugeFunc. intros H.
  apply bind_Returned_inv in H as (g0 & s0 & [= <- <-] & H).
  apply bind_Returned_inv in H as (u & s1 & H & [= <- <-]).
  apply MustRegister_Returned_inv in H. by split.
Qed.

Lemma promauto_NewCounter_Returned_inv opts s c s' :
  promauto_NewCounter opts s = Returned c s' ->
  c = {| prometheus.counter_desc := prometheus.NewDesc opts;
         prometheus.counter_cell := length (cells s) |} /\
  registers (prometheus.Name opts) c [0%Z] s s'.
Proof.
  unfold promauto_NewCounter, NewCounter, alloc. intros H.
  apply bind_Returned_inv in H as (c0 & s0 & H0 & H).
  apply bind_Returned_inv in H0 as (n & s00 & [= <- <-] & [= <- <-]).
  apply bind_Returned_inv in H as (u & s1 & H & [= <- <-]).
  apply MustRegister_Returned_inv in H. split; [reflexivity|].
  destruct H as (V & L & R & C & G & T & K & M). unfold registers.
  rewrite R, C, G, T, M, app_nil_r. by repeat split.
Qed.

Lemma promauto_NewGauge_Returned_inv opts s g s' :
  promauto_NewGauge opts s = Returned g s' ->
  g = {| prometheus.gauge_desc := prometheus.NewDesc opts;
         prometheus.gauge_cell := length (cells s) |} /\
  registers (prometheus.Name opts) g [0%Z] s s'.
Proof.
  unfold promauto_NewGauge, NewGauge, alloc. intros H.
  apply bind_Returned_inv in H as (c0 & s0 & H0 & H).
  apply bind_Returned_inv in H0 as (n & s00 & [= <- <-] & [= <- <-]).
  apply bind_Returned_inv in H as (u & s1 & H & [= <- <-]).
  apply MustRegister_Returned_inv in H. split; [reflexivity|].
  destruct H as (V & L & R & C & G & T & K & M). unfold registers.
  rewrite R, C, G, T, M, app_nil_r. by repeat split.
Qed.

Ltac names_neq :=
  let E := fresh in intros E; apply append_inj_l in E; discriminate E.

Ltac created H :=
  let a := fresh "c" in let s1 := fresh "s" in
  let H1 := fresh "R" in let E := fresh "E" in
  let V := fresh "V" in let L := fresh "L" in let D := fresh "D" in
  let C := fresh "C" in let G := fresh "G" in let T := fresh "T" in
  let K := fresh "K" in let M := fresh "M" in
  apply bind_Returned_inv in H as (a & s1 & H1 & H);
  first [ apply promauto_NewCounter_Returned_inv in H1
        | apply promauto_NewGauge_Returned_inv in H1
        | apply promauto_NewGaugeFunc_Returned_inv in H1 ];
  destruct H1 as (E & V & L & D & C & G & T & K & M);
  cbn [prometheus.Name] in V, L, D, K, M.

Lemma NewMetricsStore_Returned_inv p s r s' :
  NewMetricsStore p s = Returned r s' ->
  exists st,
    r = Some st /\
    (nameOf <$> registered st) = derivedNames p /\
    validPrefix p = true /\
    absent (derivedNames p) s = true /\
    s' = {| DefaultRegisterer := insertAll (registered st) (DefaultRegisterer s);
            dimHashesByName := insertAllDims (registered st) (dimHashesByName s);
            cells := cells s ++ replicate 7 0%Z;
            globalMetricsStore := Some st;
            lastEventProcessedTime := lastEventProcessedTime s |}.
Proof.
  unfold NewMetricsStore. intros H.
  do 8 created H.
  unfold bind, modify, ret in H. injection H as <- <-.
  eexists. split; [reflexivity|].
  split; [by subst|].
  split.
  { unfold validPrefix, derivedNames. cbn [forallb].
    rewrite V, V0, V1, V2, V3, V4, V5, V6. reflexivity. }
  split.
  { rewrite D in L0. rewrite D0, D in L1. rewrite D1, D0, D in L2.
    rewrite D2, D1, D0, D in L3. rewrite D3, D2, D1, D0, D in L4.
    rewrite D4, D3, D2, D1, D0, D in L5.
    rewrite D5, D4, D3, D2, D1, D0, D in L6.
    repeat match goal with
           | L : <[_:=_]> _ !! _ = None |- _ =>
               apply lookup_insert_None in L as [L _]
           end.
    apply absent_Forall. unfold derivedNames.
    repeat (apply Forall_cons_2; [assumption|]). apply Forall_nil_2. }
  apply State_ext;
    cbn [set_globalMetricsStore DefaultRegisterer dimHashesByName cells
         globalMetricsStore lastEventProcessedTime].
  - rewrite D6, D5, D4, D3, D2, D1, D0, D. by subst.
  - rewrite M6, M5, M4, M3, M2, M1, M0, M. by subst.
  - rewrite C6, C5, C4, C3, C2, C1, C0, C. by rewrite <- !(assoc_L (++)).
  - reflexivity.
  - congruence.
Qed.

Lemma consistent_frame n h s s' :
  dimHashesByName s' !! n = dimHashesByName s !! n ->
  consistent n h s' = consistent n h s.
Proof. unfold consistent. by intros ->. Qed.

Lemma registers_consistent name c new s s' other h :
  registers name c new s s' -> name <> other ->
  consistent other h s' = consistent other h s.
Proof.
  intros (_ & _ & _ & _ & _ & _ & _ & M) Hne. apply consistent_frame.
  rewrite M. by rewrite lookup_insert_ne.
Qed.

Lemma registers_consistent_other name c new s s' other h :
  registers name c new s s' -> name <> other ->
  consistent other h s = true -> consistent other h s' = true.
Proof. intros Rg Hne K. by rewrite (registers_consistent _ _ _ _ _ _ h Rg Hne). Qed.

Lemma consistentAll_Forall ds s :
  consistentAll ds s = true <->
  Forall (fun d => consistent (prometheus.fqName d) (prometheus.dimHash d) s
                   = true) ds.
Proof.
  unfold consistentAll. rewrite forallb_forall, Forall_forall.
  split; intros H n Hn.
  - apply list_elem_of_In in Hn. by apply H.
  - apply H. by apply list_elem_of_In.
Qed.

(** A creation that returns found nothing kept that disagreed with its
    descriptors, and its collectors carry the derived descriptors. *)
Lemma NewMetricsStore_Returned_dims p s r s' :
  NewMetricsStore p s = Returned r s' ->
  compatible p s = true /\
  forall st, r = Some st ->
    prometheus.Describe <$> registered st = derivedDescs p.
Proof.
  unfold NewMetricsStore. intros H.
  do 8 created H.
  unfold bind, modify, ret in H. injection H as <- <-.
  split.
  - unfold consistent in *.
    rewrite M in K0. rewrite M0, M in K1. rewrite M1, M0, M in K2.
    rewrite M2, M1, M0, M in K3. rewrite M3, M2, M1, M0, M in K4.
    rewrite M4, M3, M2, M1, M0, M in K5.
    rewrite M5, M4, M3, M2, M1, M0, M in K6.
    repeat match goal with
           | K : context [<[_:=_]> _ !! _] |- _ =>
               rewrite lookup_insert_ne in K by names_neq
           end.
    unfold compatible. apply consistentAll_Forall.
    unfold derivedDescs, consistent. subst.
    repeat (apply Forall_cons_2; [assumption|]). apply Forall_nil_2.
  - intros st [= <-]. by subst.
Qed.

Lemma derivedDescs_names p :
  prometheus.fqName <$> derivedDescs p = derivedNames p.
Proof. reflexivity. Qed.

(** A registration of a valid, free name with which nothing kept
    disagrees returns. *)
Lemma promauto_NewGaugeFunc_fresh opts f s :
  IsValidMetricName (prometheus.Name opts) = true ->
  consistent (prometheus.Name opts)
    (prometheus.dimHash (prometheus.NewDesc opts)) s = true ->
  DefaultRegisterer s !! prometheus.Name opts = None ->
  exists g s', promauto_NewGaugeFunc opts f s = Returned g s'.
Proof. intros V K L. rewrite promauto_NewGaugeFunc_eq, V, K, L. eauto. Qed.

Lemma promauto_NewCounter_fresh opts s :
  IsValidMetricName (prometheus.Name opts) = true ->
  consistent (prometheus.Name opts)
    (prometheus.dimHash (prometheus.NewDesc opts)) s = true ->
  DefaultRegisterer s !! prometheus.Name opts = None ->
  exists c s', promauto_NewCounter opts s = Returned c s'.
Proof. intros V K L. rewrite promauto_NewCounter_eq, V, K, L. eauto. Qed.

Lemma promauto_NewGauge_fresh opts s :
  IsValidMetricName (prometheus.Name opts) = true ->
  consistent (prometheus.Name opts)
    (prometheus.dimHash (prometheus.NewDesc opts)) s = true ->
  DefaultRegisterer s !! prometheus.Name opts = None ->
  exists g s', promauto_NewGauge opts s = Returned g s'.
Proof. intros V K L. rewrite promauto_NewGauge_eq, V, K, L. eauto. Qed.

Lemma registers_other name c new s s' other :
  registers name c new s s' -> name <> other ->
  DefaultRegisterer s !! other = None ->
  DefaultRegisterer s' !! other = None.
Proof.
  intros (_ & _ & D & _) Hne L. rewrite D. by rewrite lookup_insert_ne.
Qed.

Lemma derivedNames_NoDup p : NoDup (derivedNames p).
Proof.
  unfold derivedNames.
  repeat (apply NoDup_cons_2;
          [rewrite ?elem_of_cons, elem_of_nil;
           intros H; repeat destruct H as [H|H];
           try (apply append_inj_l in H; discriminate H); exact H|]).
  apply NoDup_nil_2.
Qed.

Lemma bind_returns {A B} (m : Go A) (k : A -> Go B) s a s1 :
  m s = Returned a s1 ->
  (exists b s', k a s1 = Returned b s') ->
  exists b s', bind m k s = Returned b s'.
Proof. intros R. by rewrite (bind_Returned m k s a s1 R). Qed.

Ltac registered_fresh :=
  lazymatch goal with
  | |- exists b s', bind ?m ?k ?s = Returned b s' =>
      let c := fresh "c" in let s1 := fresh "s" in
      let R := fresh "R" in let Rg := fresh "Rg" in
      assert (exists c s1, m s = Returned c s1) as (c & s1 & R)
        by (first [ apply promauto_NewGaugeFunc_fresh
                  | apply promauto_NewCounter_fresh
                  | apply promauto_NewGauge_fresh ]; assumption);
      first [ pose proof (promauto_NewGaugeFunc_Returned_inv _ _ _ _ _ R) as [_ Rg]
            | pose proof (promauto_NewCounter_Returned_inv _ _ _ _ R) as [_ Rg]
            | pose proof (promauto_NewGauge_Returned_inv _ _ _ _ R) as [_ Rg] ];
      repeat match goal with
             | Hf : DefaultRegisterer s !! ?n = None |- _ =>
                 first [ apply (registers_other _ _ _ _ _ n Rg) in Hf;
                         [|names_neq]
                       | clear Hf ]
             | Hk : consistent ?n ?h s = true |- _ =>
                 first [ apply (registers_consistent_other _ _ _ _ _ n h Rg)
                           in Hk; [|names_neq]
                       | clear Hk ]
             end;
      apply (bind_returns m k s c s1 R); clear R Rg
  end.

(** For a valid prefix none of whose names is registered, and with
    nothing kept under them that disagrees, [NewMetricsStore] returns. *)
Lemma NewMetricsStore_fresh p s :
  validPrefix p = true -> absent (derivedNames p) s = true ->
  compatible p s = true ->
  exists r s', NewMetricsStore p s = Returned r s'.
Proof.
  unfold validPrefix, compatible.
  rewrite absent_Forall, forallb_forall, consistentAll_Forall.
  intros V A K.
  assert (V' : Forall (fun n => IsValidMetricName n = true) (derivedNames p)).
  { apply Forall_forall. intros n Hn. apply V. by apply list_elem_of_In. }
  clear V. unfold derivedNames, derivedDescs in *.
  repeat match goal with
         | H : Forall _ (_ :: _) |- _ => apply Forall_cons_1 in H as [? H]
         end.
  cbn [prometheus.fqName] in *.
  unfold NewMetricsStore.
  do 8 registered_fresh.
  unfold bind, modify, ret. eauto.
Qed.

(** *** Registries built by repeated insertion *)

Lemma insertAll_lookup_notin cs m k :
  k ∉ nameOf <$> cs -> insertAll cs m !! k = m !! k.
Proof.
  unfold insertAll. revert m.
  induction cs as [|c cs IH]; intros m Hk; [reflexivity|].
  cbn [foldl]. rewrite fmap_cons in Hk. apply not_elem_of_cons in Hk as [Hne Hk].
  rewrite IH by exact Hk. by rewrite lookup_insert_ne.
Qed.

Lemma insertAll_lookup_in cs m c :
  NoDup (nameOf <$> cs) -> c ∈ cs -> insertAll cs m !! nameOf c = Some c.
Proof.
  revert m. induction cs as [|c0 cs IH]; intros m Hnd Hc.
  - by apply elem_of_nil in Hc.
  - rewrite fmap_cons in Hnd. apply NoDup_cons in Hnd as [Hnotin Hnd].
    apply elem_of_cons in Hc as [->|Hc].
    + change (insertAll (c0 :: cs) m) with (insertAll cs (<[nameOf c0:=c0]> m)).
      rewrite insertAll_lookup_notin by exact Hnotin.
      apply lookup_insert_eq.
    + change (insertAll (c0 :: cs) m) with (insertAll cs (<[nameOf c0:=c0]> m)).
      by apply IH.
Qed.

Lemma insertAllDims_lookup_notin cs m k :
  k ∉ nameOf <$> cs -> insertAllDims cs m !! k = m !! k.
Proof.
  unfold insertAllDims. revert m.
  induction cs as [|c cs IH]; intros m Hk; [reflexivity|].
  cbn [foldl]. rewrite fmap_cons in Hk. apply not_elem_of_cons in Hk as [Hne Hk].
  rewrite IH by exact Hk. by rewrite lookup_insert_ne.
Qed.

Lemma insertAllDims_lookup_in cs m c :
  NoDup (nameOf <$> cs) -> c ∈ cs ->
  insertAllDims cs m !! nameOf c =
    Some (prometheus.dimHash (prometheus.Describe c)).
Proof.
  revert m. induction cs as [|c0 cs IH]; intros m Hnd Hc.
  - by apply elem_of_nil in Hc.
  - rewrite fmap_cons in Hnd. apply NoDup_cons in Hnd as [Hnotin Hnd].
    change (insertAllDims (c0 :: cs) m)
      with (insertAllDims cs
              (<[nameOf c0:=prometheus.dimHash (prometheus.Describe c0)]> m)).
    apply elem_of_cons in Hc as [->|Hc].
    + rewrite insertAllDims_lookup_notin by exact Hnotin.
      apply lookup_insert_eq.
    + by apply IH.
Qed.

(** Removing the names that were inserted gives the registry back,
    where none of them was there before. *)
Lemma foldr_delete_insertAll cs ks m :
  (forall k, k ∈ ks <-> k ∈ nameOf <$> cs) ->
  Forall (fun k => m !! k = None) ks ->
  foldr delete (insertAll cs m) ks = m.
Proof.
  intros Hks Hfresh. apply map_eq. intros k.
  destruct (decide (k ∈ ks)) as [Hin|Hout].
  - rewrite lookup_foldr_delete by exact Hin.
    rewrite Forall_forall in Hfresh. symmetry. by apply Hfresh.
  - rewrite lookup_foldr_delete_not_elem_of by exact Hout.
    apply insertAll_lookup_notin. by rewrite <- Hks.
Qed.

(** *** [DestroyMetricsStore] *)

Lemma bind_ret {A B} (a : A) (k : A -> Go B) s : bind (ret a) k s = k a s.
Proof. reflexivity. Qed.

Lemma bind_Unregister {B} (c : prometheus.Collector) (k : bool -> Go B) s :
  bind (Unregister c) k s =
    k (bool_decide (is_Some (DefaultRegisterer s !! nameOf c)))
      (set_DefaultRegisterer (delete (nameOf c)) s).
Proof. unfold bind. by rewrite Unregister_eq. Qed.

Lemma set_DefaultRegisterer_compose f g s :
  set_DefaultRegisterer f (set_DefaultRegisterer g s) =
  set_DefaultRegisterer (fun m => f (g m)) s.
Proof. reflexivity. Qed.

(** A non-nil store is destroyed by removing the names of its
    collectors from the registry; nothing else changes and the call
    returns. *)
Lemma DestroyMetricsStore_eq st s :
  DestroyMetricsStore (Some st) s =
    Returned tt
      (set_DefaultRegisterer
         (fun m => foldr delete m (reverse (nameOf <$> unregistered st))) s).
Proof.
  unfold DestroyMetricsStore. cbn [deref].
  do 8 (rewrite bind_ret; cbv beta; rewrite bind_Unregister; cbv beta).
  unfold ret. rewrite !set_DefaultRegisterer_compose. reflexivity.
Qed.

Lemma DestroyMetricsStore_nil s :
  DestroyMetricsStore nil s = Panicked NilPointerDereference s.
Proof. reflexivity. Qed.

(** ** The readiness evaluator *)

Lemma five_minutes : (5 * time.Minute = 300000000000)%Z.
Proof. reflexivity. Qed.

(** The saturation of [Sub] never changes the comparison with five
    minutes. *)
Lemma Since_lt_five_minutes now t :
  (time.Since now t <? 5 * time.Minute)%Z =
  bool_decide (now - t < 5 * 60 * 1000000000)%Z.
Proof.
  rewrite five_minutes. unfold time.Since, time.Sub.
  change time.minDuration with (-9223372036854775808)%Z.
  change time.maxDuration with 9223372036854775807%Z.
  cbv zeta.
  destruct (Z.ltb_spec (now - t) (-9223372036854775808)) as [H1|H1].
  - rewrite bool_decide_eq_true_2 by lia. reflexivity.
  - destruct (Z.ltb_spec 9223372036854775807 (now - t)) as [H2|H2].
    + rewrite bool_decide_eq_false_2 by lia. reflexivity.
    + destruct (Z.ltb_spec (now - t) 300000000000) as [H3|H3].
      * rewrite bool_decide_eq_true_2 by lia. reflexivity.
      * rewrite bool_decide_eq_false_2 by lia. reflexivity.
Qed.

Lemma isEventExporterReady_returns now s :
  isEventExporterReady now s =
    Returned (readiness_rule (activeBundleExists s) (lastProcessedTime s) now) s.
Proof.
  unfold isEventExporterReady, activeBundleExists, lastProcessedTime,
    readiness_rule, bind, gets, ret.
  destruct (globalMetricsStore s) as [st|]; [|reflexivity].
  destruct (time.IsZero (lastEventProcessedTime s)); [reflexivity|].
  by rewrite Since_lt_five_minutes.
Qed.

(** C3.  For every state and clock reading, the readiness evaluator
    returns, without changing the state, the value of the readiness rule
    on (is a store active, the time of the last event unless it is the
    zero time, the clock reading): not ready when no store is active;
    otherwise ready when [lastEventProcessedTime] is the zero time;
    otherwise ready exactly when [now - lastEventProcessedTime] is less
    than five minutes. *)
Theorem isEventExporterReady_rule now s :
  isEventExporterReady now s =
    Returned (readiness_rule (activeBundleExists s) (lastProcessedTime s) now) s /\
  (activeBundleExists s = false <-> globalMetricsStore s = nil) /\
  (lastProcessedTime s = None <-> time.IsZero (lastEventProcessedTime s) = true) /\
  (forall last, readiness_rule false last now = false) /\
  readiness_rule true None now = true /\
  (forall t, readiness_rule true (Some t) now = true <->
             (now - t < 5 * time.Minute)%Z).
Proof.
  split; [apply isEventExporterReady_returns|].
  split.
  { unfold activeBundleExists, nil.
    destruct (globalMetricsStore s); split; congruence. }
  split.
  { unfold lastProcessedTime.
    destruct (time.IsZero (lastEventProcessedTime s)); split; congruence. }
  split; [reflexivity|]. split; [reflexivity|].
  intros t. cbn [readiness_rule]. rewrite five_minutes.
  apply bool_decide_eq_true.
Qed.

(** ** The probe endpoints *)

Lemma healthyHandler_response now s :
  healthyHandler now http.newResponse s = Returned okResponse s.
Proof. reflexivity. Qed.

Lemma readyHandler_response now s :
  readyHandler now http.newResponse s =
    Returned (if readiness_rule (activeBundleExists s) (lastProcessedTime s) now
              then okResponse else notReadyResponse) s.
Proof.
  unfold readyHandler, bind. rewrite isEventExporterReady_returns.
  by destruct (readiness_rule _ _ _).
Qed.

Lemma ServeHTTP_healthy now w :
  ServeHTTP now "/-/healthy" w = healthyHandler now w.
Proof. reflexivity. Qed.

Lemma ServeHTTP_ready now w :
  ServeHTTP now "/-/ready" w = readyHandler now w.
Proof. reflexivity. Qed.

(** C9.  A request for [/-/healthy] is answered with status 200 and
    body OK in every state.  A request for [/-/ready] is answered with
    status 200 and body OK when the readiness evaluator returns true,
    and with status 503 and an explanatory body when it returns false;
    in both cases the handler returns (it does not panic) and leaves
    the state as it is. *)
Theorem probes_respond now s :
  ServeHTTP now "/-/healthy" http.newResponse s = Returned okResponse s /\
  exists ready,
    isEventExporterReady now s = Returned ready s /\
    ServeHTTP now "/-/ready" http.newResponse s =
      Returned (if ready then okResponse else notReadyResponse) s /\
    http.status okResponse = http.StatusOK /\
    http.status notReadyResponse = http.StatusServiceUnavailable.
Proof.
  split.
  - rewrite ServeHTTP_healthy. apply healthyHandler_response.
  - eexists. split; [apply isEventExporterReady_returns|].
    split; [|by split].
    rewrite ServeHTTP_ready. apply readyHandler_response.
Qed.

(** ** Recording a processed event *)

Lemma value_cells c s s' : cells s' = cells s -> value c s' = value c s.
Proof. unfold value. by intros ->. Qed.

Lemma exported_frame name s s' :
  DefaultRegisterer s' = DefaultRegisterer s -> cells s' = cells s ->
  exported name s' = exported name s.
Proof.
  unfold exported. intros -> Hc.
  destruct (DefaultRegisterer s !! name) as [c|]; [|reflexivity].
  simpl. by rewrite (value_cells c s s' Hc).
Qed.


(** The gauge is moved by its own setter, which in turn leaves
    [lastEventProcessedTime] alone. *)
Lemma Gauge_SetToCurrentTime_value unixSeconds (g : prometheus.Gauge) s :
  prometheus.gauge_cell g < length (cells s) ->
  exists s',
    Gauge_SetToCurrentTime unixSeconds g s = Returned tt s' /\
    value g s' = unixSeconds /\
    lastEventProcessedTime s' = lastEventProcessedTime s.
Proof.
  intros Hlt. eexists. split; [reflexivity|]. split; [|reflexivity].
  unfold value. cbn [set_cells cells].
  by rewrite list_lookup_insert_eq.
Qed.

(** ** The lifecycle of a bundle *)

Lemma unregistered_names st k :
  k ∈ reverse (nameOf <$> unregistered st) <-> k ∈ (nameOf <$> registered st).
Proof.
  rewrite elem_of_reverse. unfold unregistered, registered.
  rewrite !fmap_cons, !elem_of_cons, fmap_nil, !elem_of_nil. tauto.
Qed.

(** Destroying a store none of whose instruments is registered changes
    nothing. *)
Lemma DestroyMetricsStore_absent st s :
  absent (nameOf <$> unregistered st) s = true ->
  DestroyMetricsStore (Some st) s = Returned tt s.
Proof.
  rewrite absent_Forall. intros A. rewrite DestroyMetricsStore_eq.
  f_equal. unfold set_DefaultRegisterer.
  rewrite foldr_delete_id by (by apply Forall_reverse).
  apply State_eta.
Qed.

Lemma DestroyMetricsStore_removes st s :
  absent (nameOf <$> unregistered st)
         (final (DestroyMetricsStore (Some st) s)) = true.
Proof.
  rewrite DestroyMetricsStore_eq. cbn [final]. apply absent_Forall.
  apply Forall_forall. intros k Hk.
  cbn [set_DefaultRegisterer DefaultRegisterer].
  apply lookup_foldr_delete. by apply elem_of_reverse.
Qed.

(** C6.  Destroying a store returns, whatever is registered; after it
    none of the store's instruments is registered, and in that state
    every [Unregister] of one of them reports [false] and changes
    nothing, and a second [DestroyMetricsStore] returns and changes
    nothing. *)
Theorem DestroyMetricsStore_idempotent st s :
  exists s1,
    DestroyMetricsStore (Some st) s = Returned tt s1 /\
    absent (nameOf <$> unregistered st) s1 = true /\
    Forall (fun c => Unregister c s1 = Returned false s1) (unregistered st) /\
    DestroyMetricsStore (Some st) s1 = Returned tt s1.
Proof.
  pose proof (DestroyMetricsStore_removes st s) as A.
  rewrite DestroyMetricsStore_eq in A |- *. cbn [final] in A.
  eexists. split; [reflexivity|]. split; [exact A|]. split.
  - apply absent_Forall in A. rewrite Forall_fmap in A.
    eapply Forall_impl; [exact A|]. intros c Hc.
    by apply Unregister_absent.
  - by apply DestroyMetricsStore_absent.
Qed.

(** [DestroyMetricsStore] assigns [nil] to its parameter only: the
    package-level reference is what it was, returning or not. *)
Lemma DestroyMetricsStore_globalMetricsStore store s :
  globalMetricsStore (final (DestroyMetricsStore store s)) =
  globalMetricsStore s.
Proof.
  destruct store as [st|]; [|reflexivity].
  by rewrite DestroyMetricsStore_eq.
Qed.

(** A registration under a name for which another help string or
    other label names are kept is refused, whether or not a collector
    is registered under the name. *)
Lemma Register_inconsistent (c : prometheus.Collector) s h :
  IsValidMetricName (nameOf c) = true ->
  dimHashesByName s !! nameOf c = Some h ->
  h <> prometheus.dimHash (prometheus.Describe c) ->
  Register c s =
    Returned (Some (prometheus.InconsistentDescError (prometheus.Describe c))) s.
Proof.
  unfold Register, consistent, nameOf. intros -> -> Hne.
  by rewrite bool_decide_eq_false_2.
Qed.

(** C5.  For a valid prefix none of whose derived names is registered
    and with which nothing kept in the registry disagrees,
    [NewMetricsStore] returns a store and [DestroyMetricsStore] of that
    store returns; the registered collectors are then those before the
    creation.  The registry need not be as it was: for each derived
    name it now keeps the help string and label names of the descriptor
    (for other names, what it kept before), and it refuses every later
    registration under a derived name with another help string or
    other label names. *)
Theorem NewMetricsStore_DestroyMetricsStore_registry p s :
  validPrefix p = true ->
  absent (derivedNames p) s = true ->
  compatible p s = true ->
  exists st s1 s2,
    NewMetricsStore p s = Returned (Some st) s1 /\
    DestroyMetricsStore (Some st) s1 = Returned tt s2 /\
    DefaultRegisterer s2 = DefaultRegisterer s /\
    Forall (fun d => dimHashesByName s2 !! prometheus.fqName d =
                       Some (prometheus.dimHash d)) (derivedDescs p) /\
    (forall name, name ∉ derivedNames p ->
       dimHashesByName s2 !! name = dimHashesByName s !! name) /\
    (forall (c : prometheus.Collector) d,
       d ∈ derivedDescs p ->
       nameOf c = prometheus.fqName d ->
       prometheus.dimHash (prometheus.Describe c) <> prometheus.dimHash d ->
       exists e, Register c s2 = Returned (Some e) s2).
Proof.
  intros V A K.
  destruct (NewMetricsStore_fresh p s V A K) as (r & s1 & R).
  destruct (NewMetricsStore_Returned_dims p s r s1 R) as (_ & Hd).
  destruct (NewMetricsStore_Returned_inv p s r s1 R)
    as (st & -> & Hn & _ & _ & ->).
  specialize (Hd st eq_refl).
  exists st. eexists. eexists. split; [exact R|].
  split; [apply DestroyMetricsStore_eq|].
  cbn [set_DefaultRegisterer DefaultRegisterer dimHashesByName].
  split.
  { apply foldr_delete_insertAll; [apply unregistered_names|].
    apply absent_Forall in A. rewrite Forall_forall in A |- *.
    intros k Hk. apply A. rewrite <- Hn. by apply unregistered_names. }
  assert (Hkept : Forall (fun d =>
            insertAllDims (registered st) (dimHashesByName s)
              !! prometheus.fqName d = Some (prometheus.dimHash d))
            (derivedDescs p)).
  { rewrite <- Hd, Forall_fmap. apply Forall_forall. intros c Hc.
    apply insertAllDims_lookup_in; [|exact Hc].
    rewrite Hn. apply derivedNames_NoDup. }
  split; [exact Hkept|]. split.
  { intros name Hname. apply insertAllDims_lookup_notin. by rewrite Hn. }
  intros c d Hin Hname Hne.
  rewrite Forall_forall in Hkept. eexists.
  apply (Register_inconsistent c _ (prometheus.dimHash d)).
  - rewrite Hname. unfold validPrefix in V. rewrite forallb_forall in V.
    apply V, list_elem_of_In. rewrite <- derivedDescs_names.
    by apply list_elem_of_fmap_2.
  - rewrite Hname. by apply Hkept.
  - congruence.
Qed.

(** ** The instruments of a new store *)

Lemma instrument_registered st sig : instrument st sig ∈ registered st.
Proof.
  unfold registered. rewrite !elem_of_cons. destruct sig; cbn [instrument]; tauto.
Qed.

Lemma derivedNames_signal p name :
  name ∈ derivedNames p <-> exists sig, name = p +:+ spec_suffix sig.
Proof.
  unfold derivedNames. rewrite !elem_of_cons, elem_of_nil. split.
  - intros H.
    repeat destruct H as [H|H]; try (subst name);
      [ exists BuildInfoSignal | exists EventsProcessedSignal
      | exists EventsDiscardedSignal | exists WatchErrorsSignal
      | exists SendErrorsSignal | exists KubeApiReadCacheHitsSignal
      | exists KubeApiReadRequestsSignal
      | exists LastProcessedEventTimestampSignal | destruct H ];
      reflexivity.
  - intros [sig ->]. destruct sig; cbn [spec_suffix]; tauto.
Qed.

Lemma spec_suffix_inj sig1 sig2 :
  spec_suffix sig1 = spec_suffix sig2 -> sig1 = sig2.
Proof. destruct sig1, sig2; cbn [spec_suffix]; congruence. Qed.

(** C7.  The store that [NewMetricsStore] returns for a prefix holds,
    for each tracked signal, an instrument whose name is the prefix
    followed by the suffix of the signal; that instrument is what the
    registry holds under the name; instruments of different signals
    have different names; and the registry has gained no other name. *)
Theorem NewMetricsStore_instruments p s r s' :
  NewMetricsStore p s = Returned r s' ->
  exists st,
    r = Some st /\
    (forall sig, nameOf (instrument st sig) = p +:+ spec_suffix sig) /\
    (forall sig,
       DefaultRegisterer s' !! (p +:+ spec_suffix sig) = Some (instrument st sig)) /\
    (forall sig1 sig2,
       nameOf (instrument st sig1) = nameOf (instrument st sig2) -> sig1 = sig2) /\
    (forall name,
       DefaultRegisterer s !! name = None ->
       is_Some (DefaultRegisterer s' !! name) ->
       exists sig, name = p +:+ spec_suffix sig).
Proof.
  intros R.
  destruct (NewMetricsStore_Returned_inv p s r s' R)
    as (st & -> & Hn & _ & _ & ->).
  exists st. split; [reflexivity|].
  assert (Hname : forall sig, nameOf (instrument st sig) = p +:+ spec_suffix sig).
  { unfold registered, derivedNames in Hn. rewrite !fmap_cons in Hn.
    injection Hn as E1 E2 E3 E4 E5 E6 E7 E8.
    intros sig. destruct sig; cbn [instrument spec_suffix]; assumption. }
  split; [exact Hname|]. split; [|split].
  - intros sig. rewrite <- Hname. cbn [DefaultRegisterer].
    apply insertAll_lookup_in; [|apply instrument_registered].
    rewrite Hn. apply derivedNames_NoDup.
  - intros sig1 sig2. rewrite !Hname. intros E.
    apply append_inj_l in E. by apply spec_suffix_inj.
  - cbn [DefaultRegisterer]. intros name Hfree [c Hc].
    apply derivedNames_signal.
    destruct (decide (name ∈ derivedNames p)) as [Hin|Hout]; [exact Hin|].
    rewrite insertAll_lookup_notin in Hc by (by rewrite Hn). congruence.
Qed.

(** ** What a creation touches *)

Lemma extends_refl s : extends s s.
Proof. by split. Qed.

Lemma extends_trans s1 s2 s3 : extends s1 s2 -> extends s2 s3 -> extends s1 s3.
Proof.
  intros [T1 C1] [T2 C2]. split; [congruence|]. by etrans.
Qed.

Lemma preserves_ret {A} (a : A) : preserves (ret a).
Proof. intros s. apply extends_refl. Qed.

Lemma preserves_panic {A} v : preserves (@panic A v).
Proof. intros s. apply extends_refl. Qed.

Lemma preserves_bind {A B} (m : Go A) (k : A -> Go B) :
  preserves m -> (forall a, preserves (k a)) -> preserves (bind m k).
Proof.
  intros Hm Hk s. unfold bind. specialize (Hm s).
  destruct (m s) as [a s1|v s1]; cbn [final] in *; [|exact Hm].
  eapply extends_trans; [exact Hm|apply Hk].
Qed.

Lemma preserves_alloc : preserves alloc.
Proof. intros s. split; [reflexivity|]. by apply prefix_app_r. Qed.

Lemma preserves_Register c : preserves (Register c).
Proof.
  intros s. unfold Register.
  destruct (negb _); [apply extends_refl|].
  destruct (negb _); [apply extends_refl|].
  destruct (DefaultRegisterer s !! _); by split.
Qed.

Lemma preserves_set_globalMetricsStore v :
  preserves (modify (set_globalMetricsStore v)).
Proof. intros s. by split. Qed.

Create HintDb frame.
#[local] Hint Resolve preserves_ret preserves_panic preserves_alloc
  preserves_Register preserves_set_globalMetricsStore : frame.

Lemma preserves_MustRegister c : preserves (MustRegister c).
Proof.
  apply preserves_bind; [auto with frame|].
  intros [e|]; auto with frame.
Qed.
#[local] Hint Resolve preserves_MustRegister : frame.

Lemma preserves_promauto_NewCounter opts : preserves (promauto_NewCounter opts).
Proof.
  unfold promauto_NewCounter, NewCounter.
  repeat first [ solve [auto with frame]
               | apply preserves_bind; [|intros ?] ].
Qed.

Lemma preserves_promauto_NewGauge opts : preserves (promauto_NewGauge opts).
Proof.
  unfold promauto_NewGauge, NewGauge.
  repeat first [ solve [auto with frame]
               | apply preserves_bind; [|intros ?] ].
Qed.

Lemma preserves_promauto_NewGaugeFunc opts f :
  preserves (promauto_NewGaugeFunc opts f).
Proof.
  unfold promauto_NewGaugeFunc, NewGaugeFunc.
  repeat first [ solve [auto with frame]
               | apply preserves_bind; [|intros ?] ].
Qed.
#[local] Hint Resolve preserves_promauto_NewCounter preserves_promauto_NewGauge
  preserves_promauto_NewGaugeFunc : frame.

(** Returning or panicking, [NewMetricsStore] leaves
    [lastEventProcessedTime] and the value of every existing cell as
    they were. *)
Lemma NewMetricsStore_preserves p : preserves (NewMetricsStore p).
Proof.
  unfold NewMetricsStore.
  repeat first [ solve [auto with frame]
               | apply preserves_bind; [|intros ?] ].
Qed.

(** C8.  When [NewMetricsStore] returns, [globalMetricsStore] is the
    returned store, whatever it was before;
    [lastEventProcessedTime] is unchanged; the registry is unchanged
    outside the names derived from the prefix; and every cell that
    existed holds the value it held. *)
Theorem NewMetricsStore_effects p s r s' :
  NewMetricsStore p s = Returned r s' ->
  exists st,
    r = Some st /\
    globalMetricsStore s' = Some st /\
    lastEventProcessedTime s' = lastEventProcessedTime s /\
    (forall name, name ∉ derivedNames p ->
       DefaultRegisterer s' !! name = DefaultRegisterer s !! name) /\
    (forall i v, cells s !! i = Some v -> cells s' !! i = Some v) /\
    (forall c : prometheus.Counter,
       prometheus.counter_cell c < length (cells s) -> value c s' = value c s).
Proof.
  intros R.
  destruct (NewMetricsStore_Returned_inv p s r s' R)
    as (st & -> & Hn & _ & _ & ->).
  exists st. cbn [globalMetricsStore lastEventProcessedTime DefaultRegisterer cells].
  repeat split.
  - intros name Hout. apply insertAll_lookup_notin. by rewrite Hn.
  - intros i v Hi. by apply lookup_app_l_Some.
  - intros c Hc. unfold value. cbn [cells]. by rewrite lookup_app_l.
Qed.

(** ** Creating twice *)

(** What a returned creation has registered: every collector of the
    returned store, under the name derived for it. *)
Lemma NewMetricsStore_registered p s r s' :
  NewMetricsStore p s = Returned r s' ->
  exists st,
    r = Some st /\
    nameOf <$> registered st = derivedNames p /\
    (forall c, c ∈ registered st -> DefaultRegisterer s' !! nameOf c = Some c).
Proof.
  intros R.
  destruct (NewMetricsStore_Returned_inv p s r s' R)
    as (st & -> & Hn & _ & _ & ->).
  exists st. split; [reflexivity|]. split; [exact Hn|].
  intros c Hc. cbn [DefaultRegisterer].
  apply insertAll_lookup_in; [|exact Hc].
  rewrite Hn. apply derivedNames_NoDup.
Qed.

Lemma kept_consistent n h s :
  dimHashesByName s !! n = Some h -> consistent n h s = true.
Proof. unfold consistent. intros ->. by apply bool_decide_eq_true_2. Qed.

(** What the registry keeps after a returned creation: for each derived
    name the help string and label names of its descriptor, and for
    every other name what it kept before. *)
Lemma NewMetricsStore_kept p s r s' :
  NewMetricsStore p s = Returned r s' ->
  Forall (fun d => dimHashesByName s' !! prometheus.fqName d =
                     Some (prometheus.dimHash d)) (derivedDescs p) /\
  (forall name, name ∉ derivedNames p ->
     dimHashesByName s' !! name = dimHashesByName s !! name).
Proof.
  intros R.
  destruct (NewMetricsStore_Returned_dims p s r s' R) as (_ & Hd).
  destruct (NewMetricsStore_Returned_inv p s r s' R)
    as (st & -> & Hn & _ & _ & ->).
  specialize (Hd st eq_refl). cbn [dimHashesByName]. split.
  - rewrite <- Hd, Forall_fmap. apply Forall_forall. intros c Hc.
    apply insertAllDims_lookup_in; [|exact Hc].
    rewrite Hn. apply derivedNames_NoDup.
  - intros name Hname. apply insertAllDims_lookup_notin. by rewrite Hn.
Qed.

Lemma NewMetricsStore_compatible p s r s' :
  NewMetricsStore p s = Returned r s' -> compatible p s' = true.
Proof.
  intros R. destruct (NewMetricsStore_kept p s r s' R) as [Hk _].
  apply consistentAll_Forall. eapply Forall_impl; [exact Hk|].
  intros d. apply kept_consistent.
Qed.

(** C2, as the code has it.  When [NewMetricsStore] has returned a
    store for a prefix, a second call with the prefix in the resulting
    state does not return: it panics with the [AlreadyRegisteredError]
    of the library, raised for the first name, [build_info], whose
    registered collector is the one of the first store; the state is
    left as the first call left it. *)
Theorem NewMetricsStore_twice p s r s1 :
  NewMetricsStore p s = Returned r s1 ->
  exists st new,
    r = Some st /\
    nameOf new = p +:+ "build_info" /\
    NewMetricsStore p s1 =
      Panicked (RegistrationPanic
                  (prometheus.AlreadyRegisteredError (BuildInfo st) new)) s1.
Proof.
  intros R.
  destruct (NewMetricsStore_registered p s r s1 R) as (st & -> & Hn & Hreg).
  destruct (NewMetricsStore_Returned_inv p s _ s1 R)
    as (st' & [= <-] & _ & V & _).
  specialize (Hreg (prometheus.ofGaugeFunc (BuildInfo st))
                (instrument_registered st BuildInfoSignal)).
  unfold registered, derivedNames in Hn. rewrite !fmap_cons in Hn.
  injection Hn as Hname _. rewrite Hname in Hreg.
  unfold validPrefix, derivedNames in V. cbn [forallb] in V.
  apply andb_true_iff in V as [V _].
  destruct (NewMetricsStore_kept p s _ s1 R) as [Hk _].
  unfold derivedDescs in Hk. apply Forall_cons_1 in Hk as [Hk _].
  cbn [prometheus.fqName] in Hk.
  exists st. eexists. split; [reflexivity|].
  unfold NewMetricsStore, bind at 1.
  rewrite promauto_NewGaugeFunc_eq. cbn [prometheus.Name]. cbv zeta.
  rewrite V. unfold consistent. rewrite Hk.
  rewrite bool_decide_eq_true_2 by reflexivity.
  rewrite Hreg. split; [|reflexivity]. reflexivity.
Qed.

(** ** When a creation returns *)

(** X1.  [NewMetricsStore] returns a store whenever the library
    accepts every name derived from the prefix, none of them is
    registered and nothing kept in the registry under them disagrees
    with their descriptors.  It panics whenever the library rejects one
    of the names, or something kept under one of them disagrees, or a
    collector is registered under one of them with the same constant
    label values. *)
Theorem NewMetricsStore_returns_when p s :
  (validPrefix p = true /\ absent (derivedNames p) s = true /\
   compatible p s = true ->
   exists st s', NewMetricsStore p s = Returned (Some st) s') /\
  (validPrefix p = false \/ compatible p s = false \/
   (exists d existing,
      d ∈ derivedDescs p /\
      DefaultRegisterer s !! prometheus.fqName d = Some existing /\
      prometheus.descID (prometheus.Describe existing) = prometheus.descID d) ->
   exists v s', NewMetricsStore p s = Panicked v s').
Proof.
  split.
  - intros (V & A & K).
    destruct (NewMetricsStore_fresh p s V A K) as (r & s' & R).
    destruct (NewMetricsStore_Returned_inv p s r s' R) as (st & -> & _).
    eauto.
  - intros Hbad.
    destruct (NewMetricsStore p s) as [r s'|v s'] eqn:R; [exfalso|eauto].
    destruct (NewMetricsStore_Returned_dims p s r s' R) as (K & _).
    destruct (NewMetricsStore_Returned_inv p s r s' R)
      as (st & _ & _ & V & A & _).
    destruct Hbad as [Hbad|[Hbad|(d & existing & Hd & Hreg & _)]];
      [congruence|congruence|].
    apply absent_Forall in A. rewrite Forall_forall in A.
    rewrite A in Hreg; [discriminate Hreg|].
    rewrite <- derivedDescs_names. by apply list_elem_of_fmap_2.
Qed.

(** After a store is destroyed none of its names is registered. *)
Lemma DestroyMetricsStore_absent_names st s u s' :
  DestroyMetricsStore (Some st) s = Returned u s' ->
  absent (nameOf <$> registered st) s' = true.
Proof.
  intros D. pose proof (DestroyMetricsStore_removes st s) as A.
  rewrite D in A. cbn [final] in A.
  apply absent_Forall in A. apply absent_Forall.
  rewrite Forall_forall in A |- *. intros k Hk. apply A.
  apply unregistered_names in Hk. by apply elem_of_reverse in Hk.
Qed.

Lemma DestroyMetricsStore_dimHashesByName store s :
  dimHashesByName (final (DestroyMetricsStore store s)) = dimHashesByName s.
Proof.
  destruct store as [st|]; [|reflexivity].
  by rewrite DestroyMetricsStore_eq.
Qed.

Lemma consistentAll_frame ds s s' :
  dimHashesByName s' = dimHashesByName s ->
  consistentAll ds s' = consistentAll ds s.
Proof.
  intros E. unfold consistentAll.
  induction ds as [|d ds IH]; [reflexivity|]. cbn [forallb].
  rewrite IH. f_equal. apply consistent_frame. by rewrite E.
Qed.

(** X2.  A prefix can be used again after its store is destroyed: when
    [NewMetricsStore] has returned a store and [DestroyMetricsStore] of
    that store has returned, [NewMetricsStore] with the same prefix
    returns a store again, which becomes [globalMetricsStore]. *)
Theorem NewMetricsStore_again p s r s1 u s2 :
  NewMetricsStore p s = Returned r s1 ->
  DestroyMetricsStore r s1 = Returned u s2 ->
  exists st' s3,
    NewMetricsStore p s2 = Returned (Some st') s3 /\
    globalMetricsStore s3 = Some st'.
Proof.
  intros R D.
  destruct (NewMetricsStore_Returned_inv p s r s1 R)
    as (st & -> & Hn & V & _ & _).
  assert (K : compatible p s2 = true).
  { pose proof (DestroyMetricsStore_dimHashesByName (Some st) s1) as E.
    rewrite D in E. cbn [final] in E. unfold compatible.
    rewrite (consistentAll_frame _ _ _ E).
    by eapply NewMetricsStore_compatible. }
  apply DestroyMetricsStore_absent_names in D. rewrite Hn in D.
  destruct (NewMetricsStore_fresh p s2 V D K) as (r' & s3 & R').
  destruct (NewMetricsStore_Returned_inv p s2 r' s3 R')
    as (st' & -> & _ & _ & _ & ->).
  exists st'. eexists. split; [exact R'|reflexivity].
Qed.

(** ** What destruction touches *)

(** X6.  [DestroyMetricsStore] of a store returns; afterwards nothing is
    exported under the names of the store, what is exported under every
    other name is as before, and the value of every collector, the
    cells and [lastEventProcessedTime] are unchanged. *)
Theorem DestroyMetricsStore_frame st s :
  exists s',
    DestroyMetricsStore (Some st) s = Returned tt s' /\
    Forall (fun c => exported (nameOf c) s' = None) (unregistered st) /\
    (forall name, name ∉ nameOf <$> unregistered st ->
       exported name s' = exported name s) /\
    (forall c : prometheus.Collector, value c s' = value c s) /\
    cells s' = cells s /\
    lastEventProcessedTime s' = lastEventProcessedTime s.
Proof.
  eexists. split; [apply DestroyMetricsStore_eq|].
  split; [|split; [|by repeat split]].
  - apply Forall_forall. intros c Hc. unfold exported.
    cbn [set_DefaultRegisterer DefaultRegisterer].
    rewrite lookup_foldr_delete; [reflexivity|].
    apply elem_of_reverse. by apply list_elem_of_fmap_2.
  - intros name Hout. unfold exported.
    cbn [set_DefaultRegisterer DefaultRegisterer].
    rewrite lookup_foldr_delete_not_elem_of by (by rewrite elem_of_reverse).
    reflexivity.
Qed.

(** ** Readiness as time passes *)

(** X8.  After an event is recorded at a time [t] other than the zero
    time while a store is active, the evaluator returns true at every
    clock reading less than five minutes after [t] (readings before [t]
    included) and false at every other reading. *)
Theorem ready_after_SetLastEventProcessedTime t now s :
  is_Some (globalMetricsStore s) ->
  t <> time.zero ->
  let s1 := final (SetLastEventProcessedTime t s) in
  isEventExporterReady now s1 =
    Returned (bool_decide (now - t < 5 * time.Minute)%Z) s1.
Proof.
  intros [st Hst] Ht s1. rewrite isEventExporterReady_returns.
  assert (Ha : activeBundleExists s1 = true).
  { unfold activeBundleExists, s1. cbn. by rewrite Hst. }
  rewrite Ha. unfold lastProcessedTime, s1.
  cbn [SetLastEventProcessedTime modify final set_lastEventProcessedTime
       lastEventProcessedTime].
  rewrite five_minutes. unfold time.IsZero.
  destruct (Z.eqb_spec t 0) as [E|E]; [by destruct Ht|].
  reflexivity.
Qed.

(** X9.  In a given state, readiness is only lost as the clock
    advances: if the evaluator returns true at a reading, it returns
    true at every earlier reading. *)
Theorem isEventExporterReady_earlier now1 now2 s :
  (now1 <= now2)%Z ->
  isEventExporterReady now2 s = Returned true s ->
  isEventExporterReady now1 s = Returned true s.
Proof.
  intros Hle. rewrite !isEventExporterReady_returns.
  unfold readiness_rule.
  destruct (activeBundleExists s); [|done].
  destruct (lastProcessedTime s) as [t|]; [|done].
  intros [= H]. apply bool_decide_eq_true in H.
  by rewrite bool_decide_eq_true_2 by lia.
Qed.

(** ** A creation that panics *)

Lemma kept_refl s : kept s s.
Proof. by repeat split. Qed.

Lemma kept_trans s1 s2 s3 : kept s1 s2 -> kept s2 s3 -> kept s1 s3.
Proof.
  intros (G1 & T1 & R1) (G2 & T2 & R2).
  repeat split; [congruence|congruence|by etrans].
Qed.

Lemma keeps_ret {A} (a : A) : keeps (ret a).
Proof. intros s. split; [apply kept_refl|]. intros v s' [=]. Qed.

Lemma keeps_alloc : keeps alloc.
Proof. intros s. split; [by repeat split|]. intros v s' [=]. Qed.

Lemma keeps_bind {A B} (m : Go A) (k : A -> Go B) :
  keeps m -> (forall a, keeps (k a)) -> keeps (bind m k).
Proof.
  intros Hm Hk s. unfold bind. destruct (Hm s) as [K P].
  destruct (m s) as [a s1|v s1]; cbn [final] in K.
  - destruct (Hk a s1) as [K' P']. split; [|exact P'].
    by eapply kept_trans.
  - split; [exact K|]. intros v' s' [= <- <-]. by eapply P.
Qed.

Lemma keeps_MustRegister c : keeps (MustRegister c).
Proof.
  intros s. rewrite MustRegister_eq.
  destruct (IsValidMetricName _);
    [destruct (consistent _ _ _)|];
    [|split; [apply kept_refl|]; intros v s' [= <- _]; eauto ..].
  destruct (DefaultRegisterer s !! nameOf c) as [x|] eqn:E.
  - split; [apply kept_refl|]. intros v s' [= <- _]. eauto.
  - split; [|intros v s' [=]].
    repeat split. cbn. by apply insert_subseteq.
Qed.

Lemma keeps_promauto_NewCounter opts : keeps (promauto_NewCounter opts).
Proof.
  unfold promauto_NewCounter, NewCounter.
  repeat first [ apply keeps_ret | apply keeps_alloc | apply keeps_MustRegister
               | apply keeps_bind; [|intros ?] ].
Qed.

Lemma keeps_promauto_NewGauge opts : keeps (promauto_NewGauge opts).
Proof.
  unfold promauto_NewGauge, NewGauge.
  repeat first [ apply keeps_ret | apply keeps_alloc | apply keeps_MustRegister
               | apply keeps_bind; [|intros ?] ].
Qed.

Lemma keeps_promauto_NewGaugeFunc opts f : keeps (promauto_NewGaugeFunc opts f).
Proof.
  unfold promauto_NewGaugeFunc, NewGaugeFunc.
  repeat first [ apply keeps_ret | apply keeps_alloc | apply keeps_MustRegister
               | apply keeps_bind; [|intros ?] ].
Qed.

Lemma keeps_on_panic_bind {A B} (m : Go A) (k : A -> Go B) :
  keeps m -> (forall a, keeps_on_panic (k a)) -> keeps_on_panic (bind m k).
Proof.
  intros Hm Hk s v s'. unfold bind. destruct (Hm s) as [K P].
  destruct (m s) as [a s1|v1 s1]; cbn [final] in K.
  - intros H. destruct (Hk a s1 v s' H) as [E K']. split; [exact E|].
    by eapply kept_trans.
  - intros [= <- <-]. split; [by eapply P|exact K].
Qed.

Lemma keeps_on_panic_returning {A} (f : State -> State) (a : A) :
  keeps_on_panic (bind (modify f) (fun _ => ret a)).
Proof. intros s v s' [=]. Qed.

(** X3.  When [NewMetricsStore] panics, the panic carries a registration
    error of the library, [globalMetricsStore] and
    [lastEventProcessedTime] are what they were, and every collector
    that was registered is still registered. *)
Theorem NewMetricsStore_panic_keeps p s v s' :
  NewMetricsStore p s = Panicked v s' ->
  (exists e, v = RegistrationPanic e) /\
  globalMetricsStore s' = globalMetricsStore s /\
  lastEventProcessedTime s' = lastEventProcessedTime s /\
  DefaultRegisterer s ⊆ DefaultRegisterer s'.
Proof.
  revert s v s'. change (keeps_on_panic (NewMetricsStore p)).
  unfold NewMetricsStore.
  repeat first
    [ apply keeps_on_panic_returning
    | apply keeps_on_panic_bind;
      [ first [ apply keeps_promauto_NewGaugeFunc
              | apply keeps_promauto_NewCounter
              | apply keeps_promauto_NewGauge ]
      | intros ? ] ].
Qed.

(** ** Where a creation panics *)

Ltac advance :=
  lazymatch goal with
  | |- context [bind ?m ?K ?s] =>
      let c := fresh "c" in let s1 := fresh "s" in
      let R := fresh "R" in let Rg := fresh "Rg" in
      let D := fresh "D" in let M := fresh "M" in
      assert (exists c s1, m s = Returned c s1) as (c & s1 & R)
        by (first [ apply promauto_NewGaugeFunc_fresh
                  | apply promauto_NewCounter_fresh
                  | apply promauto_NewGauge_fresh ]; assumption);
      first [ pose proof (promauto_NewGaugeFunc_Returned_inv _ _ _ _ _ R) as [_ Rg]
            | pose proof (promauto_NewCounter_Returned_inv _ _ _ _ R) as [_ Rg]
            | pose proof (promauto_NewGauge_Returned_inv _ _ _ _ R) as [_ Rg] ];
      repeat match goal with
             | Hf : DefaultRegisterer s !! ?n = None |- _ =>
                 first [ apply (registers_other _ _ _ _ _ n Rg) in Hf;
                         [|names_neq]
                       | clear Hf ]
             | Hk : consistent ?n ?h s = true |- _ =>
                 first [ apply (registers_consistent_other _ _ _ _ _ n h Rg)
                           in Hk; [|names_neq]
                       | clear Hk ]
             end;
      rewrite (bind_Returned m K s c s1 R); clear R;
      destruct Rg as (_ & _ & D & _ & _ & _ & _ & M);
      cbn [prometheus.Name] in D, M
  end.

Ltac back_to_start :=
  repeat match goal with
         | D : DefaultRegisterer ?x = _ |- context [DefaultRegisterer ?x] =>
             rewrite D
         | M : dimHashesByName ?x = _ |- context [dimHashesByName ?x] =>
             rewrite M
         end.

Ltac panicked_here :=
  cbv beta iota; unfold panicsAt; eexists; eexists;
  (split; [reflexivity|]);
  (split; [cbn [DefaultRegisterer set_cells set_DefaultRegisterer];
           back_to_start; rewrite ?dom_insert_L;
           cbn [list_to_set foldr]; apply set_eq; intros ?;
           rewrite ?elem_of_union, elem_of_empty; tauto
          | cbv beta iota; repeat split; first [reflexivity | assumption] ]).

Ltac stop_here s0 Hbad :=
  unfold bind at 1;
  first [ rewrite promauto_NewGaugeFunc_eq
        | rewrite promauto_NewCounter_eq
        | rewrite promauto_NewGauge_eq ];
  cbn [prometheus.Name]; cbv zeta;
  let Hv := fresh "Hv" in let Hc := fresh "Hc" in
  let x := fresh "x" in let Hx := fresh "Hx" in
  lazymatch goal with
  | |- context [IsValidMetricName ?n] =>
      destruct (IsValidMetricName n) eqn:Hv; [|panicked_here];
      lazymatch goal with
      | |- context [consistent n ?h ?sk] =>
          let Kk := fresh "Kk" in
          assert (Kk : consistent n h sk = consistent n h s0)
            by (apply consistent_frame; back_to_start;
                rewrite ?lookup_insert_ne by names_neq; reflexivity);
          try rewrite Kk; clear Kk;
          destruct (consistent n h s0) eqn:Hc; [|panicked_here]
      end;
      destruct Hbad as [Hbad|[Hbad|(x & Hx & _)]];
      [ discriminate Hbad
      | discriminate (eq_trans (eq_sym Hc) Hbad)
      | ];
      lazymatch goal with
      | |- context [DefaultRegisterer ?sk !! n] =>
          let L := fresh "L" in
          assert (L : DefaultRegisterer sk !! n = Some x)
            by (back_to_start; rewrite ?lookup_insert_ne by names_neq;
                exact Hx);
          rewrite L
      end;
      panicked_here
  end.

(** X4.  [NewMetricsStore] registers the derived descriptors in order
    and stops at the first one that the library refuses: one whose name
    it rejects, or under whose name it keeps another help string or
    other label names, or one that is registered already (a collector
    with the same name and constant label values).  It panics with the
    error for that descriptor, and the names before it stay registered
    (the registry has gained exactly those). *)
Theorem NewMetricsStore_panics_at p s k d :
  derivedDescs p !! k = Some d ->
  forallb IsValidMetricName (take k (derivedNames p)) = true ->
  absent (take k (derivedNames p)) s = true ->
  consistentAll (take k (derivedDescs p)) s = true ->
  IsValidMetricName (prometheus.fqName d) = false \/
  consistent (prometheus.fqName d) (prometheus.dimHash d) s = false \/
  (exists existing,
     DefaultRegisterer s !! prometheus.fqName d = Some existing /\
     prometheus.descID (prometheus.Describe existing) = prometheus.descID d) ->
  exists e s',
    NewMetricsStore p s = Panicked (RegistrationPanic e) s' /\
    dom (DefaultRegisterer s') =
      dom (DefaultRegisterer s) ∪ (list_to_set (take k (derivedNames p)) : gset string) /\
    match e with
    | prometheus.InvalidDescError d' =>
        d' = d /\ IsValidMetricName (prometheus.fqName d) = false
    | prometheus.InconsistentDescError d' =>
        d' = d /\
        IsValidMetricName (prometheus.fqName d) = true /\
        consistent (prometheus.fqName d) (prometheus.dimHash d) s = false
    | prometheus.AlreadyRegisteredError existing new =>
        prometheus.Describe new = d /\
        IsValidMetricName (prometheus.fqName d) = true /\
        consistent (prometheus.fqName d) (prometheus.dimHash d) s = true /\
        DefaultRegisterer s !! prometheus.fqName d = Some existing
    end.
Proof.
  intros Hk V A K Hbad.
  change (panicsAt d (take k (derivedNames p)) s (NewMetricsStore p s)).
  apply absent_Forall in A. apply consistentAll_Forall in K.
  unfold derivedNames, derivedDescs in *.
  destruct k as [|[|[|[|[|[|[|[|k]]]]]]]];
    [ cbn [take forallb] in V, A, K |- *;
      simpl in Hk; injection Hk as <-;
      cbn [prometheus.fqName] in Hbad;
      repeat (apply andb_true_iff in V as [? V]);
      repeat match goal with
             | H : Forall _ (_ :: _) |- _ => apply Forall_cons_1 in H as [? H]
             end;
      cbn [prometheus.fqName] in *;
      unfold NewMetricsStore .. | ].
  - stop_here s Hbad.
  - advance. stop_here s Hbad.
  - do 2 advance. stop_here s Hbad.
  - do 3 advance. stop_here s Hbad.
  - do 4 advance. stop_here s Hbad.
  - do 5 advance. stop_here s Hbad.
  - do 6 advance. stop_here s Hbad.
  - do 7 advance. stop_here s Hbad.
  - simpl in Hk. discriminate Hk.
Qed.

(** ** Stores with different prefixes *)

Lemma append_nil_r (p : string) : p +:+ "" = p.
Proof.
  induction p as [|c p IH]; [reflexivity|].
  change (String c p +:+ "") with (String c (p +:+ "")). by rewrite IH.
Qed.

(** Two ways to cut one string: one of the two heads extends the other. *)
Lemma append_eq_split (p1 a p2 b : string) :
  p1 +:+ a = p2 +:+ b ->
  exists d, (p1 = p2 +:+ d /\ b = d +:+ a) \/ (p2 = p1 +:+ d /\ a = d +:+ b).
Proof.
  revert p2. induction p1 as [|c p1 IH]; intros p2 E.
  - exists p2. right. by split.
  - destruct p2 as [|c2 p2].
    + exists (String c p1). left. by split.
    + change (String c (p1 +:+ a) = String c2 (p2 +:+ b)) in E.
      injection E as -> E.
      destruct (IH p2 E) as (d & [[-> ->]|[-> ->]]); exists d; [left|right];
        by split.
Qed.

Lemma list_ascii_of_string_append (a b : string) :
  String.list_ascii_of_string (a +:+ b) =
  String.list_ascii_of_string a ++ String.list_ascii_of_string b.
Proof.
  induction a as [|c a IH]; [reflexivity|].
  change (String c a +:+ b) with (String c (a +:+ b)).
  cbn [String.list_ascii_of_string]. by rewrite IH.
Qed.

(** No suffix of the table ends with another: a suffix that is [d]
    followed by a suffix has [d] empty. *)
Lemma spec_suffix_no_overlap sig1 sig2 d :
  spec_suffix sig1 = d +:+ spec_suffix sig2 -> d = "".
Proof.
  intros E. apply (f_equal String.list_ascii_of_string) in E.
  rewrite list_ascii_of_string_append in E.
  assert (Hd : String.list_ascii_of_string d =
               take (length (String.list_ascii_of_string (spec_suffix sig1)) -
                     length (String.list_ascii_of_string (spec_suffix sig2)))
                    (String.list_ascii_of_string (spec_suffix sig1))).
  { rewrite E at 2. rewrite E at 1. rewrite length_app.
    replace (length (String.list_ascii_of_string d) +
             length (String.list_ascii_of_string (spec_suffix sig2)) -
             length (String.list_ascii_of_string (spec_suffix sig2)))
      with (length (String.list_ascii_of_string d)) by lia.
    by rewrite take_app_length. }
  rewrite Hd in E.
  rewrite <- (String.string_of_list_ascii_of_string d).
  remember (String.list_ascii_of_string d) as ld eqn:Hld. clear Hld.
  destruct sig1, sig2; vm_compute in E; try discriminate E;
    vm_compute in Hd; by rewrite Hd.
Qed.

(** A name is derived from one prefix only. *)
Lemma derivedNames_prefix n p1 p2 :
  n ∈ derivedNames p1 -> n ∈ derivedNames p2 -> p1 = p2.
Proof.
  intros [sig1 ->]%derivedNames_signal [sig2 E]%derivedNames_signal.
  destruct (append_eq_split _ _ _ _ E) as (d & [[-> Hd]|[-> Hd]]);
    apply spec_suffix_no_overlap in Hd as ->; by rewrite append_nil_r.
Qed.

(** A prefix stays compatible with a state as long as what is kept
    under its names stays. *)
Lemma compatible_frame p s s' :
  (forall n, n ∈ derivedNames p ->
     dimHashesByName s' !! n = dimHashesByName s !! n) ->
  compatible p s = true -> compatible p s' = true.
Proof.
  intros H K. apply consistentAll_Forall in K. apply consistentAll_Forall.
  rewrite Forall_forall in K |- *. intros d Hd.
  rewrite (consistent_frame _ _ s s'); [by apply K|].
  apply H. rewrite <- derivedDescs_names. by apply list_elem_of_fmap_2.
Qed.

(** X5.  Stores with different prefixes do not collide: after
    [NewMetricsStore] has returned a store for one prefix, it returns a
    store for any other valid prefix whose names were free and with
    which nothing kept in the registry disagreed, and the collectors of
    both stores are registered afterwards. *)
Theorem NewMetricsStore_other_prefix p1 p2 s r1 s1 :
  p1 <> p2 ->
  NewMetricsStore p1 s = Returned r1 s1 ->
  validPrefix p2 = true ->
  absent (derivedNames p2) s = true ->
  compatible p2 s = true ->
  exists st1 st2 s2,
    r1 = Some st1 /\
    NewMetricsStore p2 s1 = Returned (Some st2) s2 /\
    Forall (fun c => DefaultRegisterer s2 !! nameOf c = Some c) (registered st1) /\
    Forall (fun c => DefaultRegisterer s2 !! nameOf c = Some c) (registered st2).
Proof.
  intros Hne R1 V2 A2 K2.
  destruct (NewMetricsStore_registered p1 s r1 s1 R1) as (st1 & -> & Hn1 & Hreg1).
  assert (K2' : compatible p2 s1 = true).
  { apply (compatible_frame p2 s s1); [|exact K2].
    intros n Hn. apply (NewMetricsStore_kept p1 s _ s1 R1).
    intros Hn'. apply Hne. by apply (derivedNames_prefix n). }
  destruct (NewMetricsStore_Returned_inv p1 s _ s1 R1)
    as (st1' & [= <-] & _ & _ & _ & Hs1).
  assert (A2' : absent (derivedNames p2) s1 = true).
  { apply absent_Forall in A2. apply absent_Forall.
    rewrite Forall_forall in A2 |- *. intros n Hn.
    rewrite Hs1. cbn [DefaultRegisterer].
    rewrite insertAll_lookup_notin; [by apply A2|].
    rewrite Hn1. intros Hn'. apply Hne.
    by apply (derivedNames_prefix n). }
  destruct (NewMetricsStore_fresh p2 s1 V2 A2' K2') as (r2 & s2 & R2).
  destruct (NewMetricsStore_registered p2 s1 r2 s2 R2) as (st2 & -> & Hn2 & Hreg2).
  destruct (NewMetricsStore_Returned_inv p2 s1 _ s2 R2)
    as (st2' & [= <-] & _ & _ & _ & Hs2).
  exists st1, st2, s2. split; [reflexivity|]. split; [exact R2|].
  split; apply Forall_forall; [|exact Hreg2].
  intros c Hc. rewrite Hs2. cbn [DefaultRegisterer].
  rewrite insertAll_lookup_notin; [by apply Hreg1|].
  rewrite Hn2. intros Hn'. apply Hne.
  apply (derivedNames_prefix (nameOf c)); [|exact Hn'].
  rewrite <- Hn1. by apply list_elem_of_fmap_2.
Qed.

(** ** The values of a new store *)

(** The instruments of a returned store own the seven cells allocated by
    the call, and its build information is the constant 1. *)
Lemma NewMetricsStore_cells p s r s' :
  NewMetricsStore p s = Returned r s' ->
  exists st,
    r = Some st /\
    cellsOf st = seq (length (cells s)) 7 /\
    prometheus.gaugeFunc_function (BuildInfo st) tt = 1%Z.
Proof.
  unfold NewMetricsStore. intros H.
  do 8 created H.
  unfold bind, modify, ret in H. injection H as <- <-.
  eexists. split; [reflexivity|]. split; [|by subst].
  unfold cellsOf.
  cbn [EventsProcessed EventsDiscarded WatchErrors SendErrors
       KubeApiReadCacheHits KubeApiReadRequests LastProcessedEventTimestamp].
  rewrite E0, E1, E2, E3, E4, E5, E6.
  cbn [prometheus.counter_cell prometheus.gauge_cell].
  rewrite C5, C4, C3, C2, C1, C0, C.
  rewrite !length_app. cbn [length seq].
  repeat f_equal; lia.
Qed.

Lemma instrument_names p st :
  nameOf <$> registered st = derivedNames p ->
  forall sig, nameOf (instrument st sig) = p +:+ spec_suffix sig.
Proof.
  intros Hn. unfold registered, derivedNames in Hn. rewrite !fmap_cons in Hn.
  injection Hn as E1 E2 E3 E4 E5 E6 E7 E8.
  intros sig. destruct sig; cbn [instrument spec_suffix]; assumption.
Qed.

(** X7.  Right after [NewMetricsStore] has returned, each of the six
    counters and the timestamp gauge is exported under its name with
    the value 0, and the build information with the value 1. *)
Theorem NewMetricsStore_exported p s r s' :
  NewMetricsStore p s = Returned r s' ->
  forall sig,
    exported (p +:+ spec_suffix sig) s' =
      Some (match sig with BuildInfoSignal => 1 | _ => 0 end)%Z.
Proof.
  intros R sig.
  destruct (NewMetricsStore_registered p s r s' R) as (st & -> & Hn & Hreg).
  destruct (NewMetricsStore_cells p s _ s' R) as (st' & [= <-] & Hc & Hf).
  destruct (NewMetricsStore_Returned_inv p s _ s' R)
    as (st' & [= <-] & _ & _ & _ & Hs).
  unfold exported. rewrite <- (instrument_names p st Hn sig).
  rewrite (Hreg _ (instrument_registered st sig)). cbn [mbind option_bind].
  f_equal. unfold cellsOf in Hc. cbn [seq] in Hc.
  injection Hc as H1 H2 H3 H4 H5 H6 H7.
  assert (Hz : forall i, i < 7 ->
            cells s' !! (length (cells s) + i) = Some 0%Z).
  { intros i Hi. rewrite Hs. cbn [cells].
    rewrite lookup_app_r by lia.
    replace (length (cells s) + i - length (cells s)) with i by lia.
    by apply lookup_replicate_2. }
  destruct sig; cbn [instrument value]; try exact Hf;
    rewrite ?H1, ?H2, ?H3, ?H4, ?H5, ?H6, ?H7;
    first [ rewrite <- (Nat.add_0_r (length (cells s))), (Hz 0) by lia
          | rewrite <- Nat.add_1_r, (Hz 1) by lia
          | replace (S (S (length (cells s)))) with (length (cells s) + 2) by lia;
            rewrite (Hz 2) by lia
          | replace (S (S (S (length (cells s))))) with (length (cells s) + 3) by lia;
            rewrite (Hz 3) by lia
          | replace (S (S (S (S (length (cells s)))))) with (length (cells s) + 4) by lia;
            rewrite (Hz 4) by lia
          | replace (S (S (S (S (S (length (cells s))))))) with (length (cells s) + 5) by lia;
            rewrite (Hz 5) by lia
          | replace (S (S (S (S (S (S (length (cells s)))))))) with (length (cells s) + 6) by lia;
            rewrite (Hz 6) by lia ];
    reflexivity.
Qed.

(** ** Updating the instruments of a live store *)

Lemma NewMetricsStore_live p s r s' :
  NewMetricsStore p s = Returned r s' ->
  exists st, r = Some st /\ live st s'.
Proof.
  intros R.
  destruct (NewMetricsStore_registered p s r s' R) as (st & -> & Hn & Hreg).
  destruct (NewMetricsStore_cells p s _ s' R) as (st' & [= <-] & Hc & _).
  destruct (NewMetricsStore_Returned_inv p s _ s' R)
    as (st' & [= <-] & _ & _ & _ & Hs).
  exists st. split; [reflexivity|]. split; [by apply Forall_forall|].
  rewrite Hc. split; [apply NoDup_seq|].
  apply Forall_forall. intros i Hi. apply elem_of_seq in Hi.
  rewrite Hs. cbn [cells]. rewrite length_app, length_replicate. lia.
Qed.

Lemma cellOf_cellsOf st sig i : cellOf st sig = Some i -> i ∈ cellsOf st.
Proof.
  unfold cellsOf. rewrite !elem_of_cons.
  destruct sig; cbn [cellOf]; intros [= <-]; tauto.
Qed.

Lemma cellOf_inj st sig1 sig2 i :
  NoDup (cellsOf st) ->
  cellOf st sig1 = Some i -> cellOf st sig2 = Some i -> sig1 = sig2.
Proof.
  unfold cellsOf. intros Hnd.
  repeat match goal with
         | H : NoDup (_ :: _) |- _ => apply NoDup_cons in H as [? H]
         end.
  repeat match goal with
         | H : _ ∉ _ :: _ |- _ => apply not_elem_of_cons in H as [? H]
         end.
  destruct sig1, sig2; cbn [cellOf]; intros [= E1] [= E2];
    try reflexivity; congruence.
Qed.

Lemma value_cellOf st sig i s :
  cellOf st sig = Some i ->
  value (instrument st sig) s = default 0%Z (cells s !! i).
Proof. destruct sig; cbn [cellOf instrument value]; by intros [= <-]. Qed.

Lemma value_BuildInfo st sig s s' :
  cellOf st sig = None ->
  value (instrument st sig) s' = value (instrument st sig) s.
Proof. by destruct sig. Qed.

(** Writing the cell of one instrument of a live store: the store
    stays live, the instrument exports the new value and every other
    instrument of the store exports what it did. *)
Lemma write_cell_live st s sig i v :
  live st s -> cellOf st sig = Some i ->
  let s' := set_cells (fun h => <[i := v]> h) s in
  live st s' /\
  exported (nameOf (instrument st sig)) s' = Some v /\
  (forall sig', sig' <> sig ->
     exported (nameOf (instrument st sig')) s' =
     exported (nameOf (instrument st sig')) s).
Proof.
  intros (Hreg & Hnd & Hlt) Hi s'.
  assert (Hi' : i < length (cells s)).
  { rewrite Forall_forall in Hlt. apply Hlt. by eapply cellOf_cellsOf. }
  assert (Hexp : forall sig0 t,
            DefaultRegisterer t = DefaultRegisterer s ->
            exported (nameOf (instrument st sig0)) t =
              Some (value (instrument st sig0) t)).
  { intros sig0 t Ht. unfold exported. rewrite Ht.
    rewrite Forall_forall in Hreg.
    by rewrite (Hreg _ (instrument_registered st sig0)). }
  split; [|split].
  - split; [exact Hreg|]. split; [exact Hnd|].
    unfold s'. cbn [set_cells cells]. by rewrite length_insert.
  - rewrite (Hexp sig s') by reflexivity. f_equal.
    rewrite (value_cellOf st sig i s' Hi). unfold s'. cbn [set_cells cells].
    by rewrite list_lookup_insert_eq.
  - intros sig' Hne. rewrite (Hexp sig' s'), (Hexp sig' s) by reflexivity.
    f_equal. destruct (cellOf st sig') as [j|] eqn:Hj.
    + rewrite !(value_cellOf st sig' j) by exact Hj.
      unfold s'. cbn [set_cells cells].
      rewrite list_lookup_insert_ne; [reflexivity|].
      intros ->. apply Hne. by eapply cellOf_inj.
    + by apply value_BuildInfo.
Qed.

(** X10.  Incrementing a counter of a live store returns and leaves
    the store live; the exported value of that counter grows by one and
    the exported value of every other instrument of the store is
    unchanged. *)
Theorem Counter_Inc_exported st s sig (c : prometheus.Counter) :
  live st s ->
  instrument st sig = prometheus.ofCounter c ->
  exists v s',
    exported (nameOf c) s = Some v /\
    Counter_Inc c s = Returned tt s' /\
    live st s' /\
    exported (nameOf c) s' = Some (v + 1)%Z /\
    (forall sig', sig' <> sig ->
       exported (nameOf (instrument st sig')) s' =
       exported (nameOf (instrument st sig')) s).
Proof.
  intros Hl Hc.
  assert (Hi : cellOf st sig = Some (prometheus.counter_cell c)).
  { destruct sig; cbn [instrument cellOf] in Hc |- *; try discriminate Hc;
      by injection Hc as ->. }
  destruct (write_cell_live st s sig _ (value c s + 1)%Z Hl Hi)
    as (Hl' & He & Ho).
  rewrite Hc in He.
  exists (value c s). eexists. split; [|split; [reflexivity|]].
  - destruct Hl as (Hreg & _). rewrite Forall_forall in Hreg.
    unfold exported. rewrite <- Hc.
    by rewrite (Hreg _ (instrument_registered st sig)).
  - split; [exact Hl'|]. split; [exact He|exact Ho].
Qed.

(** X11.  Setting the timestamp gauge of a live store to the current
    time returns and leaves the store live; every other instrument of
    the store exports what it did, and the readiness evaluator returns
    what it returned before: only [SetLastEventProcessedTime] moves the
    time it reads. *)
Theorem Gauge_SetToCurrentTime_exported st s unixSeconds :
  live st s ->
  exists s',
    Gauge_SetToCurrentTime unixSeconds (LastProcessedEventTimestamp st) s =
      Returned tt s' /\
    live st s' /\
    (forall sig', sig' <> LastProcessedEventTimestampSignal ->
       exported (nameOf (instrument st sig')) s' =
       exported (nameOf (instrument st sig')) s) /\
    (forall t, returnedValue (isEventExporterReady t s') =
               returnedValue (isEventExporterReady t s)).
Proof.
  intros Hl.
  destruct (write_cell_live st s LastProcessedEventTimestampSignal _
              unixSeconds Hl eq_refl) as (Hl' & _ & Ho).
  eexists. split; [reflexivity|]. split; [exact Hl'|].
  split; [exact Ho|].
  intros t. by rewrite !isEventExporterReady_returns.
Qed.
End Metrics.

(** ** Concrete runs *)

Lemma NewMetricsStore_DestroyMetricsStore_registry_witness :
  let s0 := appRunning legacy.IsValidMetricName devBuild in
  validPrefix legacy.IsValidMetricName "svc_" = true /\
  absent (derivedNames "svc_") s0 = true /\
  compatible devBuild "svc_" s0 = true /\
  exists st s1 s2,
    NewMetricsStore legacy.IsValidMetricName devBuild "svc_" s0 =
      Returned (Some st) s1 /\
    DestroyMetricsStore (Some st) s1 = Returned tt s2 /\
    DefaultRegisterer s2 = DefaultRegisterer s0 /\
    Forall (fun d => dimHashesByName s2 !! prometheus.fqName d =
                       Some (prometheus.dimHash d))
           (derivedDescs devBuild "svc_") /\
    (forall name, name ∉ derivedNames "svc_" ->
       dimHashesByName s2 !! name = dimHashesByName s0 !! name) /\
    (forall (c : prometheus.Collector) d,
       d ∈ derivedDescs devBuild "svc_" ->
       nameOf c = prometheus.fqName d ->
       prometheus.dimHash (prometheus.Describe c) <> prometheus.dimHash d ->
       exists e, Register legacy.IsValidMetricName c s2 = Returned (Some e) s2).
Proof.
  intros s0. split; [reflexivity|]. split; [vm_compute; reflexivity|].
  split; [vm_compute; reflexivity|].
  apply (NewMetricsStore_DestroyMetricsStore_registry
           legacy.IsValidMetricName devBuild "svc_" s0).
  - reflexivity.
  - vm_compute; reflexivity.
  - vm_compute; reflexivity.
Defined.

(** C5, as the claim states it, fails.  In a fresh process a counter
    named [svc_events_sent] with a help string of its own is accepted
    by the registry.  After a store with prefix [svc_] is created and
    destroyed, no collector is registered, as before, but the registry
    is not as it was: it keeps the help string of the store's
    [svc_events_sent], and refuses the same counter. *)
Lemma NewMetricsStore_DestroyMetricsStore_not_as_before :
  let c := prometheus.ofCounter (foreignCounter "svc_events_sent") in
  validPrefix legacy.IsValidMetricName "svc_" = true /\
  absent (derivedNames "svc_") initial = true /\
  (exists s', Register legacy.IsValidMetricName c initial = Returned None s') /\
  exists st s1 s2,
    NewMetricsStore legacy.IsValidMetricName devBuild "svc_" initial =
      Returned (Some st) s1 /\
    DestroyMetricsStore (Some st) s1 = Returned tt s2 /\
    DefaultRegisterer s2 = DefaultRegisterer initial /\
    dimHashesByName s2 <> dimHashesByName initial /\
    Register legacy.IsValidMetricName c s2 =
      Returned (Some (prometheus.InconsistentDescError (prometheus.Describe c)))
               s2.
Proof.
  intros c. split; [reflexivity|]. split; [vm_compute; reflexivity|].
  split; [eexists; vm_compute; reflexivity|].
  eexists. eexists. eexists.
  split; [vm_compute; reflexivity|].
  split; [vm_compute; reflexivity|].
  split; [vm_compute; reflexivity|].
  split; [|vm_compute; reflexivity].
  intros E. apply (f_equal (fun m => m !! "svc_events_sent")) in E.
  vm_compute in E. discriminate E.
Qed.

Lemma NewMetricsStore_instruments_witness :
  let o := NewMetricsStore legacy.IsValidMetricName devBuild "svc_" initial in
  o = Returned (returnedStore o) (final o) /\
  exists st,
    returnedStore o = Some st /\
    (forall sig, nameOf (instrument st sig) = "svc_" +:+ spec_suffix sig) /\
    (forall sig,
       DefaultRegisterer (final o) !! ("svc_" +:+ spec_suffix sig) =
         Some (instrument st sig)) /\
    (forall sig1 sig2,
       nameOf (instrument st sig1) = nameOf (instrument st sig2) -> sig1 = sig2) /\
    (forall name,
       DefaultRegisterer initial !! name = None ->
       is_Some (DefaultRegisterer (final o) !! name) ->
       exists sig, name = "svc_" +:+ spec_suffix sig).
Proof.
  intros o. split; [vm_compute; reflexivity|].
  apply (NewMetricsStore_instruments legacy.IsValidMetricName devBuild
           "svc_" initial (returnedStore o) (final o)).
  vm_compute; reflexivity.
Defined.

Lemma NewMetricsStore_effects_witness :
  let s0 := appRunning legacy.IsValidMetricName devBuild in
  let o := NewMetricsStore legacy.IsValidMetricName devBuild "svc_" s0 in
  o = Returned (returnedStore o) (final o) /\
  exists st,
    returnedStore o = Some st /\
    globalMetricsStore (final o) = Some st /\
    lastEventProcessedTime (final o) = lastEventProcessedTime s0 /\
    (forall name, name ∉ derivedNames "svc_" ->
       DefaultRegisterer (final o) !! name = DefaultRegisterer s0 !! name) /\
    (forall i v, cells s0 !! i = Some v -> cells (final o) !! i = Some v) /\
    (forall c : prometheus.Counter,
       prometheus.counter_cell c < length (cells s0) ->
       value c (final o) = value c s0).
Proof.
  intros s0 o. split; [vm_compute; reflexivity|].
  apply (NewMetricsStore_effects legacy.IsValidMetricName devBuild
           "svc_" s0 (returnedStore o) (final o)).
  vm_compute; reflexivity.
Defined.

Lemma NewMetricsStore_twice_witness :
  let o := NewMetricsStore legacy.IsValidMetricName devBuild "svc_" initial in
  o = Returned (returnedStore o) (final o) /\
  exists st new,
    returnedStore o = Some st /\
    nameOf new = "svc_" +:+ "build_info" /\
    NewMetricsStore legacy.IsValidMetricName devBuild "svc_" (final o) =
      Panicked (RegistrationPanic
                  (prometheus.AlreadyRegisteredError (BuildInfo st) new))
               (final o).
Proof.
  intros o. split; [vm_compute; reflexivity|].
  apply (NewMetricsStore_twice legacy.IsValidMetricName devBuild
           "svc_" initial (returnedStore o) (final o)).
  vm_compute; reflexivity.
Defined.

(** C2, as the claim states it, fails: the first call with prefix [svc_]
    returns a store, and the second call returns nothing to its caller. *)
Lemma NewMetricsStore_twice_not_returned :
  let o := NewMetricsStore legacy.IsValidMetricName devBuild "svc_" initial in
  (exists st, o = Returned (Some st) (final o)) /\
  ~ (exists r s2,
       NewMetricsStore legacy.IsValidMetricName devBuild "svc_" (final o) =
         Returned r s2).
Proof.
  intros o. split.
  - eexists. vm_compute. reflexivity.
  - intros (r & s2 & H). vm_compute in H. discriminate H.
Qed.

(** C1, on the code.  After the store created with prefix
    [test_destroy_] is destroyed, [globalMetricsStore] still refers to
    it: the readiness evaluator returns true and [/-/ready] answers 200
    OK, at every clock reading. *)
Theorem ready_after_DestroyMetricsStore now :
  exists st s1 s2,
    NewMetricsStore legacy.IsValidMetricName devBuild "test_destroy_" initial =
      Returned (Some st) s1 /\
    DestroyMetricsStore (Some st) s1 = Returned tt s2 /\
    globalMetricsStore s2 = Some st /\
    isEventExporterReady now s2 = Returned true s2 /\
    readyHandler now http.newResponse s2 = Returned okResponse s2.
Proof.
  eexists. eexists. eexists.
  split; [vm_compute; reflexivity|].
  split; [vm_compute; reflexivity|].
  split; [reflexivity|].
  split; reflexivity.
Qed.

(** ** The scenarios of the specification *)

(** Before any store exists the evaluator returns false. *)
Example not_ready_before_NewMetricsStore now :
  isEventExporterReady now initial = Returned false initial.
Proof. reflexivity. Qed.

(** After a creation and before any event it returns true. *)
Example ready_after_NewMetricsStore now :
  let s1 := final (NewMetricsStore legacy.IsValidMetricName devBuild "svc_" initial) in
  isEventExporterReady now s1 = Returned true s1.
Proof. intros s1. vm_compute. reflexivity. Qed.

(** Four minutes after an event it returns true, six minutes after it
    false. *)
Example ready_four_minutes_after (t : time.Time) :
  t <> time.zero ->
  let s1 := final (NewMetricsStore legacy.IsValidMetricName devBuild "svc_" initial) in
  let s2 := final (SetLastEventProcessedTime t s1) in
  isEventExporterReady (t + 4 * time.Minute)%Z s2 = Returned true s2 /\
  isEventExporterReady (t + 6 * time.Minute)%Z s2 = Returned false s2.
Proof.
  intros Ht s1 s2. rewrite !isEventExporterReady_returns.
  assert (Hz : lastProcessedTime s2 = Some t).
  { unfold lastProcessedTime, s2. cbn [SetLastEventProcessedTime modify final
      set_lastEventProcessedTime lastEventProcessedTime].
    unfold time.IsZero. destruct (Z.eqb_spec t 0) as [E|E]; [|reflexivity].
    by destruct Ht. }
  rewrite Hz. change (activeBundleExists s2) with true.
  unfold readiness_rule.
  change (4 * time.Minute)%Z with 240000000000%Z.
  change (6 * time.Minute)%Z with 360000000000%Z.
  rewrite bool_decide_eq_true_2 by lia.
  rewrite bool_decide_eq_false_2 by lia. done.
Qed.

(** With prefix [svc_], three increments of [EventsProcessed] are
    exported as the value 3 of [svc_events_sent]. *)
Example svc_events_sent_three :
  let o := NewMetricsStore legacy.IsValidMetricName devBuild "svc_" initial in
  exists st,
    returnedStore o = Some st /\
    exported "svc_events_sent"
      (final ((Counter_Inc (EventsProcessed st) ;;;
               Counter_Inc (EventsProcessed st) ;;;
               Counter_Inc (EventsProcessed st))%go (final o))) = Some 3%Z.
Proof.
  intros o. eexists. split; [vm_compute; reflexivity|].
  vm_compute. reflexivity.
Qed.

(** A prefix the name check rejects makes the creation panic at its
    first registration. *)
Example NewMetricsStore_invalid_prefix :
  returned (NewMetricsStore legacy.IsValidMetricName devBuild "my-app_" initial)
    = false.
Proof. vm_compute. reflexivity. Qed.

(** ** Concrete runs of the further properties *)

Lemma NewMetricsStore_again_witness :
  let o := NewMetricsStore legacy.IsValidMetricName devBuild "svc_" initial in
  let d := DestroyMetricsStore (returnedStore o) (final o) in
  o = Returned (returnedStore o) (final o) /\
  d = Returned tt (final d) /\
  exists st' s3,
    NewMetricsStore legacy.IsValidMetricName devBuild "svc_" (final d) =
      Returned (Some st') s3 /\
    globalMetricsStore s3 = Some st'.
Proof.
  intros o d. split; [vm_compute; reflexivity|].
  split; [vm_compute; reflexivity|].
  apply (NewMetricsStore_again legacy.IsValidMetricName devBuild
           "svc_" initial (returnedStore o) (final o) tt (final d));
    vm_compute; reflexivity.
Defined.

Lemma NewMetricsStore_panic_keeps_witness :
  let s0 := withForeign "svc_events_sent" initial in
  let o := NewMetricsStore legacy.IsValidMetricName devBuild "svc_" s0 in
  exists v,
    o = Panicked v (final o) /\
    (exists e, v = RegistrationPanic e) /\
    globalMetricsStore (final o) = globalMetricsStore s0 /\
    lastEventProcessedTime (final o) = lastEventProcessedTime s0 /\
    DefaultRegisterer s0 ⊆ DefaultRegisterer (final o).
Proof.
  intros s0 o. eexists. split; [vm_compute; reflexivity|].
  apply (NewMetricsStore_panic_keeps legacy.IsValidMetricName devBuild
           "svc_" s0 _ (final o)).
  vm_compute; reflexivity.
Defined.

Lemma NewMetricsStore_panics_at_witness :
  let s0 := withStale "svc_events_sent" initial in
  let d := {| prometheus.fqName := "svc_" +:+ "events_sent";
              prometheus.help := "The total number of events processed";
              prometheus.constLabelPairs := [] |} in
  derivedDescs devBuild "svc_" !! 1 = Some d /\
  forallb legacy.IsValidMetricName (take 1 (derivedNames "svc_")) = true /\
  absent (take 1 (derivedNames "svc_")) s0 = true /\
  consistentAll (take 1 (derivedDescs devBuild "svc_")) s0 = true /\
  DefaultRegisterer s0 !! prometheus.fqName d = None /\
  consistent (prometheus.fqName d) (prometheus.dimHash d) s0 = false /\
  exists e s',
    NewMetricsStore legacy.IsValidMetricName devBuild "svc_" s0 =
      Panicked (RegistrationPanic e) s' /\
    dom (DefaultRegisterer s') =
      dom (DefaultRegisterer s0) ∪
      (list_to_set (take 1 (derivedNames "svc_")) : gset string) /\
    match e with
    | prometheus.InvalidDescError d' =>
        d' = d /\ legacy.IsValidMetricName (prometheus.fqName d) = false
    | prometheus.InconsistentDescError d' =>
        d' = d /\
        legacy.IsValidMetricName (prometheus.fqName d) = true /\
        consistent (prometheus.fqName d) (prometheus.dimHash d) s0 = false
    | prometheus.AlreadyRegisteredError existing new =>
        prometheus.Describe new = d /\
        legacy.IsValidMetricName (prometheus.fqName d) = true /\
        consistent (prometheus.fqName d) (prometheus.dimHash d) s0 = true /\
        DefaultRegisterer s0 !! prometheus.fqName d = Some existing
    end.
Proof.
  intros s0 d.
  assert (H1 : derivedDescs devBuild "svc_" !! 1 = Some d) by reflexivity.
  assert (H2 : forallb legacy.IsValidMetricName (take 1 (derivedNames "svc_"))
               = true) by reflexivity.
  assert (H3 : absent (take 1 (derivedNames "svc_")) s0 = true)
    by (vm_compute; reflexivity).
  assert (H4 : consistentAll (take 1 (derivedDescs devBuild "svc_")) s0 = true)
    by (vm_compute; reflexivity).
  assert (H5 : consistent (prometheus.fqName d) (prometheus.dimHash d) s0
               = false) by (vm_compute; reflexivity).
  split; [exact H1|]. split; [exact H2|]. split; [exact H3|].
  split; [exact H4|]. split; [vm_compute; reflexivity|]. split; [exact H5|].
  exact (NewMetricsStore_panics_at legacy.IsValidMetricName devBuild
           "svc_" s0 1 d H1 H2 H3 H4 (or_intror (or_introl H5))).
Defined.

(** Free names are not enough for a second prefix: with another help
    string kept under one of its names, the second creation panics
    although none of its names is registered. *)
Example NewMetricsStore_other_prefix_stale :
  let s0 := withStale "svc_events_sent" initial in
  let o := NewMetricsStore legacy.IsValidMetricName devBuild "app_" s0 in
  returned o = true /\
  absent (derivedNames "svc_") s0 = true /\
  compatible devBuild "svc_" s0 = false /\
  returned (NewMetricsStore legacy.IsValidMetricName devBuild "svc_" (final o))
    = false.
Proof. intros s0 o. repeat split; vm_compute; reflexivity. Qed.

(** The same creation where the foreign counter is still registered:
    the kept help string decides, and the error is again the one for
    a descriptor that disagrees, not the one for a registered
    collector. *)
Example NewMetricsStore_foreign_registered :
  let s0 := withForeign "svc_events_sent" initial in
  exists d s',
    NewMetricsStore legacy.IsValidMetricName devBuild "svc_" s0 =
      Panicked (RegistrationPanic (prometheus.InconsistentDescError d)) s' /\
    prometheus.fqName d = "svc_events_sent".
Proof.
  intros s0. eexists. eexists. split; [vm_compute; reflexivity|reflexivity].
Qed.

Lemma NewMetricsStore_other_prefix_witness :
  let o := NewMetricsStore legacy.IsValidMetricName devBuild "app_" initial in
  "app_" <> "svc_" /\
  o = Returned (returnedStore o) (final o) /\
  validPrefix legacy.IsValidMetricName "svc_" = true /\
  absent (derivedNames "svc_") initial = true /\
  compatible devBuild "svc_" initial = true /\
  exists st1 st2 s2,
    returnedStore o = Some st1 /\
    NewMetricsStore legacy.IsValidMetricName devBuild "svc_" (final o) =
      Returned (Some st2) s2 /\
    Forall (fun c => DefaultRegisterer s2 !! nameOf c = Some c) (registered st1) /\
    Forall (fun c => DefaultRegisterer s2 !! nameOf c = Some c) (registered st2).
Proof.
  intros o.
  assert (H1 : "app_" <> "svc_") by discriminate.
  assert (H2 : o = Returned (returnedStore o) (final o))
    by (vm_compute; reflexivity).
  assert (H3 : validPrefix legacy.IsValidMetricName "svc_" = true)
    by reflexivity.
  assert (H4 : absent (derivedNames "svc_") initial = true)
    by (vm_compute; reflexivity).
  assert (H5 : compatible devBuild "svc_" initial = true)
    by (vm_compute; reflexivity).
  split; [exact H1|]. split; [exact H2|]. split; [exact H3|].
  split; [exact H4|]. split; [exact H5|].
  exact (NewMetricsStore_other_prefix legacy.IsValidMetricName devBuild
           "app_" "svc_" initial (returnedStore o) (final o) H1 H2 H3 H4 H5).
Defined.

Lemma NewMetricsStore_exported_witness :
  let o := NewMetricsStore legacy.IsValidMetricName devBuild "svc_" initial in
  o = Returned (returnedStore o) (final o) /\
  forall sig,
    exported ("svc_" +:+ spec_suffix sig) (final o) =
      Some (match sig with BuildInfoSignal => 1 | _ => 0 end)%Z.
Proof.
  intros o.
  assert (H1 : o = Returned (returnedStore o) (final o))
    by (vm_compute; reflexivity).
  split; [exact H1|].
  exact (NewMetricsStore_exported legacy.IsValidMetricName devBuild
           "svc_" initial (returnedStore o) (final o) H1).
Defined.

Lemma ready_after_SetLastEventProcessedTime_witness :
  let s0 := appRunning legacy.IsValidMetricName devBuild in
  let t := 1000%Z in
  let now := (t + 4 * time.Minute)%Z in
  is_Some (globalMetricsStore s0) /\
  t <> time.zero /\
  let s1 := final (SetLastEventProcessedTime t s0) in
  isEventExporterReady now s1 =
    Returned (bool_decide (now - t < 5 * time.Minute)%Z) s1.
Proof.
  intros s0 t now.
  assert (H1 : is_Some (globalMetricsStore s0))
    by (eexists; vm_compute; reflexivity).
  assert (H2 : t <> time.zero) by discriminate.
  split; [exact H1|]. split; [exact H2|].
  exact (ready_after_SetLastEventProcessedTime t now s0 H1 H2).
Defined.

Lemma isEventExporterReady_earlier_witness :
  let s0 :=
    final (SetLastEventProcessedTime 1000%Z
             (appRunning legacy.IsValidMetricName devBuild)) in
  let now2 := (1000 + 4 * time.Minute)%Z in
  (1000 <= now2)%Z /\
  isEventExporterReady now2 s0 = Returned true s0 /\
  isEventExporterReady 1000%Z s0 = Returned true s0.
Proof.
  intros s0 now2.
  assert (H1 : (1000 <= now2)%Z) by (vm_compute; discriminate).
  assert (H2 : isEventExporterReady now2 s0 = Returned true s0)
    by (vm_compute; reflexivity).
  split; [exact H1|]. split; [exact H2|].
  exact (isEventExporterReady_earlier 1000%Z now2 s0 H1 H2).
Defined.

Lemma Counter_Inc_exported_witness :
  let o := NewMetricsStore legacy.IsValidMetricName devBuild "svc_" initial in
  exists st,
    returnedStore o = Some st /\
    live st (final o) /\
    instrument st EventsProcessedSignal =
      prometheus.ofCounter (EventsProcessed st) /\
    exists v s',
      exported (nameOf (EventsProcessed st)) (final o) = Some v /\
      Counter_Inc (EventsProcessed st) (final o) = Returned tt s' /\
      live st s' /\
      exported (nameOf (EventsProcessed st)) s' = Some (v + 1)%Z /\
      (forall sig', sig' <> EventsProcessedSignal ->
         exported (nameOf (instrument st sig')) s' =
         exported (nameOf (instrument st sig')) (final o)).
Proof.
  intros o.
  assert (H1 : o = Returned (returnedStore o) (final o))
    by (vm_compute; reflexivity).
  destruct (NewMetricsStore_live legacy.IsValidMetricName devBuild
              "svc_" initial _ _ H1) as (st & Hst & Hl).
  exists st. split; [exact Hst|]. split; [exact Hl|].
  split; [reflexivity|].
  exact (Counter_Inc_exported st (final o) EventsProcessedSignal
           (EventsProcessed st) Hl eq_refl).
Defined.

Lemma Gauge_SetToCurrentTime_exported_witness :
  let o := NewMetricsStore legacy.IsValidMetricName devBuild "svc_" initial in
  exists st,
    returnedStore o = Some st /\
    live st (final o) /\
    exists s',
      Gauge_SetToCurrentTime 1793409498%Z (LastProcessedEventTimestamp st)
        (final o) =
        Returned tt s' /\
      live st s' /\
      (forall sig', sig' <> LastProcessedEventTimestampSignal ->
         exported (nameOf (instrument st sig')) s' =
         exported (nameOf (instrument st sig')) (final o)) /\
      (forall t, returnedValue (isEventExporterReady t s') =
                 returnedValue (isEventExporterReady t (final o))).
Proof.
  intros o.
  assert (H1 : o = Returned (returnedStore o) (final o))
    by (vm_compute; reflexivity).
  destruct (NewMetricsStore_live legacy.IsValidMetricName devBuild
              "svc_" initial _ _ H1) as (st & Hst & Hl).
  exists st. split; [exact Hst|]. split; [exact Hl|].
  exact (Gauge_SetToCurrentTime_exported st (final o) 1793409498%Z Hl).
Defined.
